(** * eats-worm: the filter sweep of [gcamp_extractor/FilterSweeper.py]

    A shallow embedding of the [FilterSweeper] class: the constructor, the
    [from_extractor] class method, the [filter_and_threshold] callback that
    the GUI binding calls on every control change, and the finalisation done
    by [sweep_parameters].

    Conventions.
    - Python integers are [Z]; a Python float is the rational [Q] it
      stands for (every finite binary64 number is one).  The code at hand
      only stores and passes floats on; the one float computation, inside
      numpy's quantile, is a parameter of the development.  A value that
      the code never type-checks is a [num], either [Int] or [Float].
    - numpy arrays are objects of a store ([heap]), named by location, so
      that in-place filtering and [copy.deepcopy] are visible.
    - A Python call either returns or raises: [outcome].  State changes made
      before an exception is raised stay in the state. *)

From Stdlib Require Import ZArith QArith Qround Qabs Lia Lqa String.
From stdpp Require Import base list sorting.

Local Open Scope Z_scope.

(** ** Exceptions and outcomes *)

Inductive exn : Type :=
  | AttributeError
  | TypeError
  | IndexError
  | KeyError
  | ValueError
  | UnboundLocalError
  | LibraryError (code : nat).

Inductive outcome (A : Type) : Type :=
  | Return (a : A)
  | Raise (e : exn).
Arguments Return {A} a.
Arguments Raise {A} e.

Definition raises {A} (o : outcome A) : Prop :=
  match o with Raise _ => True | Return _ => False end.

(** A computation over a state [S]: it always hands back the state it
    reached, also when it raises. *)
Definition M (S A : Type) : Type := S -> S * outcome A.

Definition ret {S A} (a : A) : M S A := fun s => (s, Return a).
Definition throw {S A} (e : exn) : M S A := fun s => (s, Raise e).
Definition bind {S A B} (m : M S A) (k : A -> M S B) : M S B :=
  fun s => match m s with
           | (s', Return a) => k a s'
           | (s', Raise e) => (s', Raise e)
           end.
Definition lift {S A} (o : outcome A) : M S A := fun s => (s, o).
Definition get {S} : M S S := fun s => (s, Return s).
Definition modify {S} (f : S -> S) : M S unit := fun s => (f s, Return tt).

(** [try: body except: handler], with Python's bare [except]. *)
Definition try_except {S A} (body handler : M S A) : M S A :=
  fun s => match body s with
           | (s', Return a) => (s', Return a)
           | (s', Raise _) => handler s'
           end.

Declare Scope py_scope.
Delimit Scope py_scope with py.
Notation "x <- m ;; k" := (bind m (fun x => k))
  (at level 100, m at next level, right associativity) : py_scope.
Notation "m ;;; k" := (bind m (fun _ => k))
  (at level 100, right associativity) : py_scope.

(** ** Numbers *)

Inductive num : Type :=
  | Int (z : Z)
  | Float (q : Q).

Definition num_to_Q (n : num) : Q :=
  match n with Int z => inject_Z z | Float q => q end.

(** Python's [==] on numbers compares values: [3 == 3.0]. *)
Definition num_eqb (a b : num) : bool := Qeq_bool (num_to_Q a) (num_to_Q b).

(** ** Sequences: indexing and [list.index] *)

(** [l[i]] on a list or tuple: a negative index counts from the end, an
    index out of [-len, len) raises IndexError. *)
Definition seq_getitem {A} (l : list A) (i : Z) : outcome A :=
  let n := Z.of_nat (length l) in
  let j := if i <? 0 then i + n else i in
  if (j <? 0) || (n <=? j) then Raise IndexError
  else match l !! Z.to_nat j with
       | Some x => Return x
       | None => Raise IndexError
       end.

(** A subscript that is not an integer raises TypeError. *)
Definition list_getitem {A} (l : list A) (i : num) : outcome A :=
  match i with
  | Int z => seq_getitem l z
  | Float _ => Raise TypeError
  end.

(** The objects an extractor attribute may hold. *)
Inductive pyobj : Type :=
  | PyNone
  | PyNum (n : num)
  | PyTuple (items : list num)
  | PyDict (items : list (Z * num)).

Definition py_len (o : pyobj) : outcome Z :=
  match o with
  | PyTuple items => Return (Z.of_nat (length items))
  | PyDict items => Return (Z.of_nat (length items))
  | PyNone | PyNum _ => Raise TypeError
  end.

Fixpoint dict_get (items : list (Z * num)) (k : Z) : outcome num :=
  match items with
  | [] => Raise KeyError
  | (k', v) :: rest => if k' =? k then Return v else dict_get rest k
  end.

Definition py_getitem (o : pyobj) (i : Z) : outcome num :=
  match o with
  | PyTuple items => seq_getitem items i
  | PyDict items => dict_get items i
  | PyNone | PyNum _ => Raise TypeError
  end.

(** [l.index(x)]: the position of the first element equal to [x],
    ValueError when there is none. *)
Fixpoint index_from (l : list num) (x : num) (pos : Z) : outcome Z :=
  match l with
  | [] => Raise ValueError
  | y :: rest => if num_eqb y x then Return pos else index_from rest x (pos + 1)
  end.

Definition list_index (l : list num) (x : pyobj) : outcome Z :=
  match x with
  | PyNum n => index_from l n 0
  | _ => Raise ValueError
  end.

(** An attribute that the object does not have raises AttributeError. *)
Definition getattr {A} (field : option A) : outcome A :=
  match field with
  | Some v => Return v
  | None => Raise AttributeError
  end.

(** ** Arrays and the store *)

Record ndarray : Type := { shape : list nat; flat : list Z }.
Record mask : Type := { mshape : list nat; mflat : list bool }.

(* Abbreviations, so that the list lemmas apply without unfolding. *)
Abbreviation loc := nat (only parsing).
Abbreviation heap := (list ndarray) (only parsing).

Definition empty_array : ndarray := {| shape := [0%nat]; flat := [] |}.

Definition read (h : heap) (l : loc) : ndarray := default empty_array (h !! l).
Definition alloc (a : ndarray) (h : heap) : heap * loc := (h ++ [a], length h).
Definition write (l : loc) (a : ndarray) (h : heap) : heap := <[l := a]> h.

(** [copy.deepcopy(x)] of an array: a new object with the same contents. *)
Definition deepcopy (l : loc) (h : heap) : heap * loc := alloc (read h l) h.

(** ** [np.quantile] (numpy, default linear interpolation)

    numpy checks the quantile first (ValueError outside [0, 1]); on empty
    data the answer is nan; otherwise the data is sorted and the value at
    the virtual index [q * (n - 1)] is interpolated between its two
    neighbours.  The interpolation is done in binary64 and its formula
    differs between numpy releases, so it is a parameter, [interpolation],
    of [np_quantile] and of everything that calls it. *)

Inductive float : Type :=
  | NaN
  | Fin (q : Q).

Definition sort_samples (a : list Z) : list Z := merge_sort Z.le a.

Definition sample (s : list Z) (i : Z) : Q :=
  inject_Z (default 0 (s !! Z.to_nat i)).

(** The value at the virtual index, in exact arithmetic. *)
Definition interpolate (s : list Z) (q : Q) : Q :=
  let n := Z.of_nat (length s) in
  let pos := (q * inject_Z (n - 1))%Q in
  let lo := Qfloor pos in
  let hi := Z.min (lo + 1) (n - 1) in
  let gamma := (pos - inject_Z lo)%Q in
  (sample s lo + (sample s hi - sample s lo) * gamma)%Q.

(** Interpolation without rounding. *)
Definition exact_interpolation (s : list Z) (q : Q) : float := Fin (interpolate s q).

Definition np_quantile (interpolation : list Z -> Q -> float) (a : list Z) (q : Q)
    : outcome float :=
  if negb (Qle_bool 0 q && Qle_bool q 1) then Raise ValueError
  else match a with
       | [] => Return NaN
       | _ => Return (interpolation (sort_samples a) q)
       end.

(** [x > c] for a sample [x] and a float [c]; every comparison with nan is
    False. *)
Definition gt (x : Z) (c : float) : bool :=
  match c with
  | NaN => false
  | Fin q => negb (Qle_bool (inject_Z x) q)
  end.

(** [a > c], elementwise. *)
Definition greater (a : ndarray) (c : float) : mask :=
  {| mshape := shape a; mflat := map (fun x => gt x c) (flat a) |}.

Definition count_true (m : mask) : nat := length (filter (fun b => b = true) (mflat m)).

(** A cutoff [c1] that is not above [c2]: nan, which no sample exceeds,
    counts as the highest. *)
Definition not_above (c1 c2 : float) : Prop :=
  match c1, c2 with
  | _, NaN => True
  | NaN, Fin _ => False
  | Fin a, Fin b => (a <= b)%Q
  end.

(** ** binary64 arithmetic, for one numpy release

    Rounding of a rational to the nearest number with a 53-bit significand,
    ties to even (no overflow, no subnormals: the values at hand are far
    from both). *)
Definition pow2 (e : Z) : Q :=
  if 0 <=? e then inject_Z (2 ^ e) else (1 # Z.to_pos (2 ^ (- e))).

Definition round_half_even (x : Q) : Z :=
  let f := Qfloor x in
  match Qcompare (x - inject_Z f) (1 # 2) with
  | Lt => f
  | Gt => f + 1
  | Eq => if Z.even f then f else f + 1
  end.

Definition binary64 (x : Q) : Q :=
  match Qcompare x 0 with
  | Eq => 0%Q
  | cmp =>
      let a := Qabs x in
      let l := Z.log2 (Qnum a) - Z.log2 (Zpos (Qden a)) in
      let e := (if Qle_bool (pow2 l) a then l else l - 1) - 52 in
      let v := Qred (inject_Z (round_half_even (a / pow2 e)) * pow2 e) in
      match cmp with Lt => Qopp v | _ => v end
  end.

(** The linear interpolation of numpy's quantile up to release 1.19
    (setup.py asks for numpy >= 1.13.3): the virtual index [q * (n - 1)],
    the weight above [index - floor(index)], the weight below
    [1 - weight above], and the sum of the two weighted neighbours, each
    operation rounded. *)
Definition numpy_1_19_interpolation (s : list Z) (q : Q) : float :=
  let n := Z.of_nat (length s) in
  let index := binary64 (q * inject_Z (n - 1)) in
  let below := Qfloor index in
  let above := Z.min (below + 1) (n - 1) in
  let weight_above := binary64 (index - inject_Z below) in
  let weight_below := binary64 (1 - weight_above) in
  let x1 := binary64 (sample s below * weight_below) in
  let x2 := binary64 (sample s above * weight_above) in
  Fin (binary64 (x1 + x2)).

(** The binary64 number written 0.3. *)
Definition double_0_3 : Q := 5404319552844595 # 18014398509481984.

(** ** The sweeper object *)

Definition gauss6 : Type := (num * num * num * num * num * num)%type.

Record FilterSweeper : Type := {
  stacks : list loc;
  width_x_val : num;
  width_y_val : num;
  width_z_val : num;
  sigma_x : num;
  sigma_y : num;
  sigma_z : num;
  median_sizes : list num;
  median_index : num;
  quantile : num;
  (* set by sweep_parameters only *)
  gaussian : option gauss6;
  median : option num
}.

(** The [params] dictionary of [__init__]: each of the nine keys may be
    absent. *)
Record params : Type := {
  p_width_x_val : option num;
  p_width_y_val : option num;
  p_width_z_val : option num;
  p_sigma_x : option num;
  p_sigma_y : option num;
  p_sigma_z : option num;
  p_median_sizes : option (list num);
  p_median_index : option num;
  p_quantile : option num
}.

Definition no_params : params :=
  {| p_width_x_val := None; p_width_y_val := None; p_width_z_val := None;
     p_sigma_x := None; p_sigma_y := None; p_sigma_z := None;
     p_median_sizes := None; p_median_index := None; p_quantile := None |}.

(** [d.get(key, dflt)] *)
Definition dict_get_or {A} (entry : option A) (dflt : A) : A := default dflt entry.

Definition __init__ (stacks0 : list loc) (params0 : option params) : FilterSweeper :=
  let p := match params0 with None => no_params | Some p => p end in
  {| stacks := stacks0;
     width_x_val := dict_get_or (p_width_x_val p) (Int 3);
     width_y_val := dict_get_or (p_width_y_val p) (Int 3);
     width_z_val := dict_get_or (p_width_z_val p) (Int 3);
     sigma_x := dict_get_or (p_sigma_x p) (Int 1);
     sigma_y := dict_get_or (p_sigma_y p) (Int 1);
     sigma_z := dict_get_or (p_sigma_z p) (Int 1);
     median_sizes := dict_get_or (p_median_sizes p) [Int 1; Int 3; Int 5];
     median_index := dict_get_or (p_median_index p) (Int 1);
     quantile := dict_get_or (p_quantile p) (Float (9 # 10));
     gaussian := None;
     median := None |}.

(** ** The extractor handed to [from_extractor] *)

Module Extractor.
Record t : Type := {
  gaussian : option pyobj;
  quantile : option num;
  median : option pyobj;
  (* e.im.get_t(t=i): a reference to the volume of timepoint i *)
  get_t : Z -> outcome loc
}.
End Extractor.

Local Open Scope py_scope.

(** The six names the first [try] statement may bind. *)
Record gauss_locals : Type := {
  l_width_x_val : num;
  l_width_y_val : num;
  l_width_z_val : num;
  l_sigma_x : num;
  l_sigma_y : num;
  l_sigma_z : num
}.

(** [e.gaussian[i]] and [len(e.gaussian)] *)
Definition gaussian_item (e : Extractor.t) (i : Z) : M heap num :=
  g <- lift (getattr (Extractor.gaussian e)) ;; lift (py_getitem g i).
Definition gaussian_len (e : Extractor.t) : M heap Z :=
  g <- lift (getattr (Extractor.gaussian e)) ;; lift (py_len g).

(** Lines 66-77.  [None] is the path on which neither branch runs and the
    six names stay unbound.  A branch that raises half-way leaves some of
    them bound, but then the handler rebinds all six or raises itself, so
    only "all" and "none" are ever observed afterwards. *)
Definition decode_body (e : Extractor.t) : M heap (option gauss_locals) :=
  n <- gaussian_len e ;;
  if n =? 4 then
    w <- gaussian_item e 0 ;;
    wz <- gaussian_item e 2 ;;
    s <- gaussian_item e 1 ;;
    sz <- gaussian_item e 3 ;;
    ret (Some {| l_width_x_val := w; l_width_y_val := w; l_width_z_val := wz;
                 l_sigma_x := s; l_sigma_y := s; l_sigma_z := sz |})
  else
    n' <- gaussian_len e ;;
    if n' =? 6 then
      wx <- gaussian_item e 0 ;;
      wy <- gaussian_item e 1 ;;
      wz <- gaussian_item e 4 ;;
      sx <- gaussian_item e 2 ;;
      sy <- gaussian_item e 3 ;;
      sz <- gaussian_item e 5 ;;
      ret (Some {| l_width_x_val := wx; l_width_y_val := wy; l_width_z_val := wz;
                   l_sigma_x := sx; l_sigma_y := sy; l_sigma_z := sz |})
    else ret None.

(** Lines 79-84. *)
Definition decode_handler (e : Extractor.t) : M heap (option gauss_locals) :=
  sx <- gaussian_item e 2 ;;
  sy <- gaussian_item e 3 ;;
  sz <- gaussian_item e 5 ;;
  ret (Some {| l_width_x_val := Int 1; l_width_y_val := Int 1; l_width_z_val := Int 1;
               l_sigma_x := sx; l_sigma_y := sy; l_sigma_z := sz |}).

Definition decode_gaussian (e : Extractor.t) : M heap (option gauss_locals) :=
  try_except (decode_body e) (decode_handler e).

(** Lines 85-88. *)
Definition decode_quantile (e : Extractor.t) : M heap num :=
  try_except (lift (getattr (Extractor.quantile e))) (ret (Float (99 # 100))).

(** Lines 90-93. *)
Definition decode_median_index (e : Extractor.t) (sizes : list num) : M heap num :=
  try_except
    (m <- lift (getattr (Extractor.median e)) ;;
     i <- lift (list_index sizes m) ;;
     ret (Int i))
    (ret (Int 1)).

(** Lines 96-106: reading a name that was never bound raises
    UnboundLocalError. *)
Definition pack_params (bound : option gauss_locals) (q : num) (sizes : list num)
    (idx : num) : M heap params :=
  match bound with
  | None => throw UnboundLocalError
  | Some v =>
      ret {| p_width_x_val := Some (l_width_x_val v);
             p_width_y_val := Some (l_width_y_val v);
             p_width_z_val := Some (l_width_z_val v);
             p_sigma_x := Some (l_sigma_x v);
             p_sigma_y := Some (l_sigma_y v);
             p_sigma_z := Some (l_sigma_z v);
             p_quantile := Some q;
             p_median_sizes := Some sizes;
             p_median_index := Some idx |}
  end.

(** Lines 109-113: [for i in range(timepoints)], from timepoint [i] on. *)
Fixpoint pull_volumes (e : Extractor.t) (i : Z) (count : nat) (acc : list loc)
    : M heap (list loc) :=
  match count with
  | O => ret acc
  | S count' =>
      im1 <- lift (Extractor.get_t e i) ;;
      im1_unfiltered <- (fun h => let '(h', l) := deepcopy im1 h in (h', Return l)) ;;
      pull_volumes e (i + 1) count' (acc ++ [im1_unfiltered])
  end.

Definition from_extractor (e : Extractor.t) (timepoints : Z) : M heap FilterSweeper :=
  bound <- decode_gaussian e ;;
  q <- decode_quantile e ;;
  let sizes := [Int 1; Int 3; Int 5] in
  idx <- decode_median_index e sizes ;;
  p <- pack_params bound q sizes idx ;;
  stacks0 <- pull_volumes e 0 (Z.to_nat timepoints) [] ;;
  ret (__init__ stacks0 (Some p)).

(** ** The interactive session *)

(** A napari image layer; [layer.data] is an array of the store. *)
Record Image : Type := { data : loc }.

(** What [sweep_parameters] builds on window close. *)
Record ResultRecord : Type := {
  r_gaussian : gauss6;
  r_median : num;
  r_quantile : num
}.

Record world : Type := {
  self : FilterSweeper;
  mem : heap;
  (* the "filter_and_threshold result" layer of the viewer *)
  display : option (list mask);
  (* what print() has written *)
  stdout : list ResultRecord
}.

Definition set_self (s : FilterSweeper) (w : world) : world :=
  {| self := s; mem := mem w; display := display w; stdout := stdout w |}.
Definition set_mem (h : heap) (w : world) : world :=
  {| self := self w; mem := h; display := display w; stdout := stdout w |}.
Definition set_display (d : option (list mask)) (w : world) : world :=
  {| self := self w; mem := mem w; display := d; stdout := stdout w |}.
Definition print (r : ResultRecord) (w : world) : world :=
  {| self := self w; mem := mem w; display := display w; stdout := stdout w ++ [r] |}.

(** The eight values the controls hand to the callback: floats from a
    FloatSlider, integers from a Slider. *)
Record controls : Type := {
  c_quantile : Q;
  c_median_index : Z;
  width_x : Z;
  width_y : Z;
  width_z : Z;
  c_sigma_x : Q;
  c_sigma_y : Q;
  c_sigma_z : Q
}.

(** Lines 146-153, eight assignments that cannot raise. *)
Definition store_controls (c : controls) (s : FilterSweeper) : FilterSweeper :=
  {| stacks := stacks s;
     quantile := Float (c_quantile c);
     median_index := Int (c_median_index c);
     width_x_val := Int (2 * width_x c + 1);
     width_y_val := Int (2 * width_y c + 1);
     width_z_val := Int (2 * width_z c + 1);
     sigma_x := Float (c_sigma_x c);
     sigma_y := Float (c_sigma_y c);
     sigma_z := Float (c_sigma_z c);
     median_sizes := median_sizes s;
     gaussian := gaussian s;
     median := median s |}.

(** What a filter of [segfunctions] (not in the sources at hand) may do with
    the array it is given: change it in place, and then raise, return that
    same array object, or return a new array.  It sees the contents of its
    argument and its parameters, nothing else. *)
Inductive returned : Type :=
  | SameObject
  | NewArray (a : ndarray).

Record effect : Type := { arg_after : ndarray; result : outcome returned }.

Definition call_filter (f : ndarray -> effect) (l : loc) : M world loc :=
  fun w =>
    let r := f (read (mem w) l) in
    let h1 := write l (arg_after r) (mem w) in
    match result r with
    | Raise e => (set_mem h1 w, Raise e)
    | Return SameObject => (set_mem h1 w, Return l)
    | Return (NewArray a) => let '(h2, l') := alloc a h1 in (set_mem h2 w, Return l')
    end.

Definition deepcopy_m (l : loc) : M world loc :=
  fun w => let '(h', l') := deepcopy l (mem w) in (set_mem h' w, Return l').

(** [np.array(self.stacks)]: the volumes stacked along a new first axis. *)
Definition np_array (h : heap) (ls : list loc) : ndarray :=
  {| shape := length ls :: match ls with [] => [] | l :: _ => shape (read h l) end;
     flat := concat (map (fun l => flat (read h l)) ls) |}.

Section Sweep.

Variable gaussian3d : ndarray -> gauss6 -> effect.
Variable medFilter2d : ndarray -> num -> effect.
Variable interpolation : list Z -> Q -> float.

(** Lines 155-158, the body of the loop over [self.stacks]. *)
Definition filter_stack (layer : Image) (stack : loc) : M world mask :=
  work <- deepcopy_m stack ;;
  w <- get ;;
  let s := self w in
  blurred <- call_filter
    (fun a => gaussian3d a (width_x_val s, width_y_val s, sigma_x s, sigma_y s,
                            width_z_val s, sigma_z s)) work ;;
  size <- lift (list_getitem (median_sizes s) (median_index s)) ;;
  filtered <- call_filter (fun a => medFilter2d a size) blurred ;;
  w' <- get ;;
  cutoff <- lift (np_quantile interpolation (flat (read (mem w') (data layer)))
                              (num_to_Q (quantile (self w')))) ;;
  ret (greater (read (mem w') filtered) cutoff).

Fixpoint for_stacks (layer : Image) (todo : list loc) (acc : list mask)
    : M world (list mask) :=
  match todo with
  | [] => ret acc
  | stack :: rest =>
      thresholded <- filter_stack layer stack ;;
      for_stacks layer rest (acc ++ [thresholded])
  end.

(** Lines 141-159.  A Python function that falls off its end returns
    None. *)
Definition filter_and_threshold (layer : option Image) (c : controls)
    : M world (option (list mask)) :=
  match layer with
  | None => ret None
  | Some img =>
      modify (fun w => set_self (store_controls c (self w)) w) ;;;
      w <- get ;;
      filtered_and_thresholded <- for_stacks img (stacks (self w)) [] ;;
      ret (Some filtered_and_thresholded)
  end.

(** One control change, as the GUI binding (magicgui with
    [auto_call=True]) handles it: the callback runs, and an image it
    returns replaces the data of the result layer.  An exception is
    reported by the GUI and the session goes on. *)
Record event : Type := { ev_layer : option Image; ev_controls : controls }.

Definition gui_call (ev : event) : M world unit :=
  fun w =>
    match filter_and_threshold (ev_layer ev) (ev_controls ev) w with
    | (w', Return (Some img)) => (set_display (Some img) w', Return tt)
    | (w', Return None) => (w', Return tt)
    | (w', Raise _) => (w', Return tt)
    end.

Fixpoint event_loop (events : list event) : M world unit :=
  match events with
  | [] => ret tt
  | ev :: rest => gui_call ev ;;; event_loop rest
  end.

(** Lines 168-170. *)
Definition finalize : M world (option ResultRecord) :=
  w <- get ;;
  let s := self w in
  size <- lift (list_getitem (median_sizes s) (median_index s)) ;;
  let final_params :=
    {| r_gaussian := (width_x_val s, width_y_val s, sigma_x s, sigma_y s,
                      width_z_val s, sigma_z s);
       r_median := size;
       r_quantile := quantile s |} in
  modify (fun w =>
    set_self {| stacks := stacks s;
                width_x_val := width_x_val s; width_y_val := width_y_val s;
                width_z_val := width_z_val s;
                sigma_x := sigma_x s; sigma_y := sigma_y s; sigma_z := sigma_z s;
                median_sizes := median_sizes s; median_index := median_index s;
                quantile := quantile s;
                gaussian := Some (r_gaussian final_params);
                median := Some (r_median final_params) |} w) ;;;
  modify (print final_params) ;;;
  (* the function ends here, without a return statement *)
  ret None.

(** [sweep_parameters]: the viewer gets a layer holding a copy of the
    stacks, the controls are served until the window is closed, then the
    parameters are packed. *)
Definition sweep_parameters (events : list event) : M world (option ResultRecord) :=
  modify (fun w => set_mem (fst (alloc (np_array (mem w) (stacks (self w))) (mem w))) w) ;;;
  event_loop events ;;;
  finalize.

End Sweep.

(** ** What a stack goes through, as a function of its contents *)

(** The contents of the array a filter hands back. *)
Definition filter_output (r : effect) : outcome ndarray :=
  match result r with
  | Raise e => Raise e
  | Return SameObject => Return (arg_after r)
  | Return (NewArray a) => Return a
  end.

Definition outcome_bind {A B} (o : outcome A) (k : A -> outcome B) : outcome B :=
  match o with
  | Return a => k a
  | Raise e => Raise e
  end.

Fixpoint outcome_map {A B} (f : A -> outcome B) (l : list A) : outcome (list B) :=
  match l with
  | [] => Return []
  | x :: rest =>
      outcome_bind (f x) (fun y =>
      outcome_bind (outcome_map f rest) (fun ys => Return (y :: ys)))
  end.

Section Pipeline.

Variable gaussian3d : ndarray -> gauss6 -> effect.
Variable medFilter2d : ndarray -> num -> effect.

(** Blur, then median filter, of the contents [a] under the parameters
    held by [s]. *)
Definition median_filtered (s : FilterSweeper) (a : ndarray) : outcome ndarray :=
  outcome_bind
    (filter_output (gaussian3d a (width_x_val s, width_y_val s, sigma_x s, sigma_y s,
                                  width_z_val s, sigma_z s)))
    (fun blurred =>
  outcome_bind (list_getitem (median_sizes s) (median_index s)) (fun size =>
  filter_output (medFilter2d blurred size))).

End Pipeline.

(** ** Properties of stored parameters *)

Definition odd_width (n : num) : Prop :=
  match n with
  | Int z => Z.odd z = true /\ 1 <= z
  | Float _ => False
  end.

Definition widths_odd (s : FilterSweeper) : Prop :=
  odd_width (width_x_val s) /\ odd_width (width_y_val s) /\ odd_width (width_z_val s).

Definition allocated (h : heap) (l : loc) : Prop := (l < length h)%nat.

(** The parameter fields of a sweeper, in the order of the result record. *)
Definition parameter_set (s : FilterSweeper) : gauss6 * list num * num * num :=
  ((width_x_val s, width_y_val s, sigma_x s, sigma_y s, width_z_val s, sigma_z s),
   median_sizes s, median_index s, quantile s).

(** ** Stand-ins for the absent filters, used to run the model *)

(** Adds one to every sample of its argument, in place, and returns it. *)
Definition blur_in_place (a : ndarray) (_ : gauss6) : effect :=
  {| arg_after := {| shape := shape a; flat := map Z.succ (flat a) |};
     result := Return SameObject |}.

(** Leaves its argument alone and returns a new array, the samples capped
    at 100 times the size; rejects a size below 1. *)
Definition cap_filter (a : ndarray) (size : num) : effect :=
  {| arg_after := a;
     result :=
       match size with
       | Int z =>
           if z <? 1 then Raise (LibraryError 1)
           else Return (NewArray {| shape := shape a;
                                    flat := map (Z.min (100 * z)) (flat a) |})
       | Float _ => Raise (LibraryError 2)
       end |}.

Definition volume_2x2 : ndarray :=
  {| shape := [1%nat; 2%nat; 2%nat]; flat := [10; 400; 20; 30] |}.

(** An extractor with the given [gaussian] attribute, quantile 0.95,
    median 5 and a single timepoint, held at location 0. *)
Definition extractor_with (g : option pyobj) : Extractor.t :=
  {| Extractor.gaussian := g;
     Extractor.quantile := Some (Float (95 # 100));
     Extractor.median := Some (PyNum (Int 5));
     Extractor.get_t := fun i => if i =? 0 then Return 0%nat else Raise IndexError |}.

Definition tuple4 : pyobj := PyTuple [Int 3; Float (3 # 2); Int 5; Float 2].
Definition tuple6 : pyobj := PyTuple [Int 3; Int 5; Float 1; Float (3 # 2); Int 7; Float 2].
Definition tuple7 : pyobj :=
  PyTuple [Int 3; Int 5; Float 1; Float (3 # 2); Int 7; Float 2; Int 9].

Definition default_controls : controls :=
  {| c_quantile := 9 # 10; c_median_index := 1;
     width_x := 1; width_y := 1; width_z := 1;
     c_sigma_x := 1; c_sigma_y := 1; c_sigma_z := 1 |}.

(** The default controls with the median index moved to 3, one past the
    end of the size list. *)
Definition index3_controls : controls :=
  {| c_quantile := 9 # 10; c_median_index := 3;
     width_x := 1; width_y := 1; width_z := 1;
     c_sigma_x := 1; c_sigma_y := 1; c_sigma_z := 1 |}.

(** A session with one loaded volume at location 0 and the viewer's copy of
    the stack list at location 1. *)
Definition one_volume_world : world :=
  {| self := __init__ [0%nat] None;
     mem := [volume_2x2; np_array [volume_2x2] [0%nat]];
     display := None;
     stdout := [] |}.

Definition worm_layer : Image := {| data := 1%nat |}.

(** [w'] is [w] with a store that agrees below [n] and is at least as long:
    the session object, the display and the output are the same. *)
Definition extends (n : nat) (w w' : world) : Prop :=
  self w' = self w /\ display w' = display w /\ stdout w' = stdout w /\
  (n <= length (mem w'))%nat /\
  forall l, (l < n)%nat -> mem w' !! l = mem w !! l.

(** The thresholded volume of one stack, from the store [h] the
    recomputation starts in. *)
Definition thresholded_stack (gaussian3d : ndarray -> gauss6 -> effect)
    (medFilter2d : ndarray -> num -> effect) (interpolation : list Z -> Q -> float)
    (s : FilterSweeper) (h : heap) (layer : Image) (stack : loc) : outcome mask :=
  outcome_bind (median_filtered gaussian3d medFilter2d s (read h stack)) (fun filtered =>
  outcome_bind (np_quantile interpolation (flat (read h (data layer)))
                  (num_to_Q (quantile s)))
    (fun cutoff => Return (greater filtered cutoff))).

(** The loaded volumes are the same objects with the same contents, and
    the store has only grown. *)
Definition preserved (w w' : world) : Prop :=
  stacks (self w') = stacks (self w) /\
  (length (mem w) <= length (mem w'))%nat /\
  forall l, allocated (mem w) l -> mem w' !! l = mem w !! l.

(** [x] lies strictly above the cutoff [c]. *)
Definition exceeds (x : Z) (c : float) : Prop :=
  match c with
  | NaN => False
  | Fin q => (q < inject_Z x)%Q
  end.

(** [m] marks exactly the samples of [a] that lie strictly above [c]. *)
Definition marks_above (c : float) (a : ndarray) (m : mask) : Prop :=
  mshape m = shape a /\
  Forall2 (fun x (b : bool) => b = true <-> exceeds x c) (flat a) (mflat m).

Definition gauss_of (s : FilterSweeper) : gauss6 :=
  (width_x_val s, width_y_val s, sigma_x s, sigma_y s, width_z_val s, sigma_z s).

(** A session opened on a sweeper: nothing displayed, nothing printed. *)
Definition new_session (fs : FilterSweeper) (h : heap) : world :=
  {| self := fs; mem := h; display := None; stdout := [] |}.

(** Line 141: the value a width control starts from, [(w - 1) // 2].
    Python's [//] rounds down, on integers and on floats. *)
Definition initial_half_width (w : num) : num :=
  match w with
  | Int z => Int ((z - 1) / 2)
  | Float q => Float (inject_Z (Qfloor ((q - 1) / 2)))
  end.

(** The store after deep-copying the arrays [srcs] one after the other. *)
Fixpoint copy_all (h : heap) (srcs : list loc) : heap :=
  match srcs with
  | [] => h
  | l :: rest => copy_all (fst (deepcopy l h)) rest
  end.

(** The session of one volume with the size list [3, 0, 5]: the default
    median index selects size 0, which [cap_filter] rejects. *)
Definition zero_size_world : world :=
  {| self := __init__ [0%nat]
               (Some {| p_width_x_val := None; p_width_y_val := None;
                        p_width_z_val := None;
                        p_sigma_x := None; p_sigma_y := None; p_sigma_z := None;
                        p_median_sizes := Some [Int 3; Int 0; Int 5];
                        p_median_index := None; p_quantile := None |});
     mem := [volume_2x2; np_array [volume_2x2] [0%nat]];
     display := None;
     stdout := [] |}.

(** A sweeper built with the widths 4, 3 and 7. *)
Definition widths_4_3_7 : FilterSweeper :=
  __init__ []
    (Some {| p_width_x_val := Some (Int 4); p_width_y_val := Some (Int 3);
             p_width_z_val := Some (Int 7);
             p_sigma_x := None; p_sigma_y := None; p_sigma_z := None;
             p_median_sizes := None; p_median_index := None; p_quantile := None |}).

Definition half_widths_5_5_5 : controls :=
  {| c_quantile := 9 # 10; c_median_index := 1;
     width_x := 5; width_y := 5; width_z := 5;
     c_sigma_x := 1; c_sigma_y := 1; c_sigma_z := 1 |}.

Definition half_widths_1_1_3 : controls :=
  {| c_quantile := 9 # 10; c_median_index := 1;
     width_x := 1; width_y := 1; width_z := 3;
     c_sigma_x := 1; c_sigma_y := 1; c_sigma_z := 1 |}.

(** An extractor that has the Gaussian tuple and one timepoint but neither
    a quantile nor a median. *)
Definition bare_extractor : Extractor.t :=
  {| Extractor.gaussian := Some tuple4;
     Extractor.quantile := None;
     Extractor.median := None;
     Extractor.get_t := fun i => if i =? 0 then Return 0%nat else Raise IndexError |}.

(** The attributes of a sweeper that no control change assigns. *)
Definition fixed_part (s : FilterSweeper)
    : list loc * list num * option gauss6 * option num :=
  (stacks s, median_sizes s, gaussian s, median s).

(** The world [sweep_parameters] hands to the event loop: the viewer's
    layer, a copy of the stacks, is the newest array of the store. *)
Definition with_viewer (w : world) : world :=
  set_mem (fst (alloc (np_array (mem w) (stacks (self w))) (mem w))) w.

(** * Lemmas *)

Lemma extends_refl n w : (n <= length (mem w))%nat -> extends n w w.
Proof. intros Hn. repeat split; auto. Qed.

Lemma extends_trans n w1 w2 w3 :
  extends n w1 w2 -> extends n w2 w3 -> extends n w1 w3.
Proof.
  intros (Hs & Hd & Ho & Hl & Hm) (Hs' & Hd' & Ho' & Hl' & Hm').
  repeat split; try congruence; auto.
  intros l Hlt. rewrite Hm', Hm; auto.
Qed.

Lemma extends_read n w w' l :
  extends n w w' -> (l < n)%nat -> read (mem w') l = read (mem w) l.
Proof. intros (_ & _ & _ & _ & Hm) Hlt. unfold read. now rewrite Hm. Qed.

Lemma read_alloc_new (h : heap) a : read (h ++ [a]) (length h) = a.
Proof.
  unfold read. rewrite lookup_app_r by lia.
  now replace (length h - length h)%nat with 0%nat by lia.
Qed.

Lemma read_write_same (h : heap) l a : (l < length h)%nat -> read (write l a h) l = a.
Proof. intros Hl. unfold read, write. now rewrite list_lookup_insert_eq. Qed.

Lemma deepcopy_m_extends n l w :
  (n <= length (mem w))%nat ->
  exists w', deepcopy_m l w = (w', Return (length (mem w))) /\
             extends n w w' /\
             length (mem w') = S (length (mem w)) /\
             read (mem w') (length (mem w)) = read (mem w) l.
Proof.
  intros Hn. eexists. split; [reflexivity|]. cbn.
  split; [|split].
  - repeat split; cbn; auto.
    + rewrite length_app. lia.
    + intros k Hk. apply lookup_app_l. lia.
  - rewrite length_app. cbn. lia.
  - apply read_alloc_new.
Qed.

(** A filter call touches the array it is given and nothing older; what it
    hands back holds [filter_output]. *)
Lemma call_filter_spec n f l w :
  (n <= l)%nat -> (l < length (mem w))%nat ->
  exists w' o, call_filter f l w = (w', o) /\
    extends n w w' /\
    (length (mem w) <= length (mem w'))%nat /\
    match o with
    | Return l' =>
        (n <= l')%nat /\ (l' < length (mem w'))%nat /\
        filter_output (f (read (mem w) l)) = Return (read (mem w') l')
    | Raise e => filter_output (f (read (mem w) l)) = Raise e
    end.
Proof.
  intros Hn Hl. unfold call_filter, filter_output, extends.
  set (h1 := write l (arg_after (f (read (mem w) l))) (mem w)).
  assert (Hframe : forall k, (k < n)%nat -> h1 !! k = mem w !! k).
  { intros k Hk. apply list_lookup_insert_ne. lia. }
  assert (Hlen : length h1 = length (mem w)) by apply length_insert.
  assert (Hsame : read h1 l = arg_after (f (read (mem w) l)))
    by now apply read_write_same.
  destruct (result (f (read (mem w) l))) as [[|a]|e].
  - exists (set_mem h1 w), (Return l). cbn. rewrite Hlen, Hsame.
    repeat split; auto; lia.
  - exists (set_mem (h1 ++ [a]) w), (Return (length h1)). cbn.
    rewrite length_app, Hlen, <- Hlen, read_alloc_new. cbn.
    repeat split; auto; try lia.
    intros k Hk. rewrite lookup_app_l by lia. auto.
  - exists (set_mem h1 w), (Raise e). cbn. rewrite Hlen.
    repeat split; auto; lia.
Qed.

Lemma odd_width_of_half (h : Z) : 0 <= h -> odd_width (Int (2 * h + 1)).
Proof.
  intros Hh. cbn. split; [|lia].
  now rewrite Z.add_comm, Z.odd_add_mul_2.
Qed.

Lemma store_controls_widths_odd c s :
  0 <= width_x c -> 0 <= width_y c -> 0 <= width_z c ->
  widths_odd (store_controls c s).
Proof.
  intros Hx Hy Hz. unfold widths_odd. cbn [store_controls width_x_val width_y_val width_z_val].
  auto using odd_width_of_half.
Qed.

Lemma gt_exceeds x c : gt x c = true <-> exceeds x c.
Proof.
  destruct c as [|q]; cbn; [split; [discriminate|tauto]|].
  rewrite negb_true_iff, <- not_true_iff_false, Qle_bool_iff.
  split; [apply Qnot_le_lt|apply Qlt_not_le].
Qed.

Lemma greater_marks_above a c : marks_above c a (greater a c).
Proof.
  split; [reflexivity|]. cbn.
  induction (flat a) as [|x xs IH]; cbn; constructor; auto using gt_exceeds.
Qed.

Lemma seq_getitem_out_of_range {A} (l : list A) i :
  i < - Z.of_nat (length l) \/ Z.of_nat (length l) <= i ->
  seq_getitem l i = Raise IndexError.
Proof.
  intros H. unfold seq_getitem.
  destruct (i <? 0) eqn:Hneg.
  - apply Z.ltb_lt in Hneg.
    replace (i + Z.of_nat (length l) <? 0) with true; [reflexivity|].
    symmetry. apply Z.ltb_lt. lia.
  - apply Z.ltb_ge in Hneg.
    replace (Z.of_nat (length l) <=? i) with true; [now rewrite orb_true_r|].
    symmetry. apply Z.leb_le. lia.
Qed.

Lemma np_quantile_invalid itp a q :
  (q < 0 \/ 1 < q)%Q -> np_quantile itp a q = Raise ValueError.
Proof.
  intros H. unfold np_quantile.
  replace (Qle_bool 0 q && Qle_bool q 1) with false; [reflexivity|].
  symmetry. apply andb_false_iff.
  destruct H as [H|H]; [left|right]; apply not_true_iff_false;
    rewrite Qle_bool_iff; now apply Qlt_not_le.
Qed.

Lemma outcome_map_thresholded g m itp s h img ls : forall filtered cutoff,
  outcome_map (fun stack => median_filtered g m s (read h stack)) ls = Return filtered ->
  np_quantile itp (flat (read h (data img))) (num_to_Q (quantile s)) = Return cutoff ->
  outcome_map (thresholded_stack g m itp s h img) ls =
    Return (map (fun a => greater a cutoff) filtered).
Proof.
  induction ls as [|l ls IH]; intros filtered cutoff Hf Hq; cbn in *.
  - now inversion Hf.
  - unfold thresholded_stack at 1.
    destruct (median_filtered g m s (read h l)) as [a|e]; cbn in *; [|discriminate].
    rewrite Hq. cbn.
    destruct (outcome_map _ ls) as [fs|e] eqn:E; cbn in *; [|discriminate].
    inversion Hf; subst. now rewrite (IH fs cutoff eq_refl Hq).
Qed.

Section SweepProperties.

Variable gaussian3d : ndarray -> gauss6 -> effect.
Variable medFilter2d : ndarray -> num -> effect.
Variable interpolation : list Z -> Q -> float.

(** One turn of the loop leaves everything below [n] as it was, and it
    computes [thresholded_stack] of the store the turn starts in when the
    layer's data lies below [n]. *)
Lemma filter_stack_spec n layer stack w :
  (n <= length (mem w))%nat ->
  exists w' o, filter_stack gaussian3d medFilter2d interpolation layer stack w = (w', o) /\
    extends n w w' /\
    ((data layer < n)%nat ->
     o = thresholded_stack gaussian3d medFilter2d interpolation (self w) (mem w) layer stack).
Proof.
  intros Hn. unfold filter_stack, bind.
  destruct (deepcopy_m_extends n stack w Hn) as (w1 & E1 & X1 & L1 & R1).
  rewrite E1. cbn [get].
  pose proof X1 as (S1 & _).
  edestruct (call_filter_spec n) as (w2 & o2 & E2 & X2 & L2 & P2);
    [ | | rewrite E2 ]; [exact Hn | lia | ].
  rewrite R1, S1 in P2.
  unfold thresholded_stack, median_filtered.
  destruct o2 as [blurred|e];
    [|rewrite P2; cbn [outcome_bind]; eauto 6 using extends_trans].
  destruct P2 as (Hb & Hbl & P2). rewrite P2. cbn [outcome_bind].
  unfold lift at 1. rewrite S1.
  destruct (list_getitem (median_sizes (self w)) (median_index (self w))) as [size|e];
    cbn [outcome_bind]; [|eauto 6 using extends_trans].
  edestruct (call_filter_spec n) as (w3 & o3 & E3 & X3 & L3 & P3);
    [ | | rewrite E3 ]; [exact Hb | exact Hbl | ].
  assert (X13 : extends n w w3) by eauto using extends_trans.
  destruct o3 as [filtered|e]; [|rewrite P3; eauto 6].
  destruct P3 as (Hf & Hfl & P3). rewrite P3. cbn [outcome_bind].
  unfold lift. pose proof X13 as (S3 & _). rewrite S3.
  destruct (np_quantile interpolation (flat (read (mem w3) (data layer))) _)
    as [cutoff|e] eqn:Eq;
    cbn [ret]; eexists _, _; (split; [reflexivity|]); (split; [exact X13|]);
    intros Hd; rewrite (extends_read n w w3) in Eq by auto; now rewrite Eq.
Qed.

Lemma for_stacks_spec n layer todo : forall acc w,
  (n <= length (mem w))%nat ->
  exists w' o, for_stacks gaussian3d medFilter2d interpolation layer todo acc w = (w', o) /\
    extends n w w' /\
    (Forall (fun l => (l < n)%nat) todo -> (data layer < n)%nat ->
     o = outcome_bind
           (outcome_map
              (thresholded_stack gaussian3d medFilter2d interpolation (self w) (mem w) layer) todo)
           (fun new => Return (acc ++ new))).
Proof.
  induction todo as [|stack rest IH]; intros acc w Hn.
  - exists w, (Return acc). cbn. rewrite app_nil_r.
    repeat split; auto.
  - cbn [for_stacks outcome_map]. unfold bind at 1.
    destruct (filter_stack_spec n layer stack w Hn) as (w1 & o1 & E1 & X1 & V1).
    rewrite E1.
    destruct o1 as [t|e].
    + pose proof X1 as (S1 & _ & _ & L1 & M1).
      destruct (IH (acc ++ [t]) w1 L1) as (w2 & o2 & E2 & X2 & V2).
      exists w2, o2. split; [exact E2|]. split; [eauto using extends_trans|].
      intros Hall Hd. inversion Hall as [|? ? Hs Hrest]; subst.
      rewrite <- (V1 Hd). cbn [outcome_bind].
      rewrite (V2 Hrest Hd), S1.
      assert (Hmap : outcome_map
                (thresholded_stack gaussian3d medFilter2d interpolation (self w) (mem w1) layer) rest =
              outcome_map
                (thresholded_stack gaussian3d medFilter2d interpolation (self w) (mem w) layer) rest).
      { clear - Hrest Hd X1. induction Hrest as [|l ls Hl _ IHls]; [reflexivity|].
        cbn [outcome_map]. unfold thresholded_stack at 1 3.
        now rewrite !(extends_read n w w1), IHls by auto. }
      rewrite Hmap.
      destruct (outcome_map
                  (thresholded_stack gaussian3d medFilter2d interpolation (self w) (mem w) layer) rest)
        as [ts|e]; cbn [outcome_bind]; [|reflexivity].
      now rewrite <- app_assoc.
    + exists w1, (Raise e). repeat split; try apply X1.
      intros _ Hd. now rewrite <- (V1 Hd).
Qed.

(** The callback with a layer: the controls are stored, then every stack
    is filtered; only the store grows. *)
Lemma filter_and_threshold_spec img c w :
  let w0 := set_self (store_controls c (self w)) w in
  exists w' o, filter_and_threshold gaussian3d medFilter2d interpolation (Some img) c w = (w', o) /\
    extends (length (mem w)) w0 w' /\
    (Forall (allocated (mem w)) (stacks (self w)) -> allocated (mem w) (data img) ->
     o = outcome_bind
           (outcome_map
              (thresholded_stack gaussian3d medFilter2d interpolation (store_controls c (self w))
                 (mem w) img)
              (stacks (self w)))
           (fun out => Return (Some out))).
Proof.
  intros w0. unfold filter_and_threshold, bind, modify. cbn [get]. fold w0.
  destruct (for_stacks_spec (length (mem w)) img (stacks (self w0)) [] w0)
    as (w' & o & E & X & V); [cbn; lia|].
  rewrite E. destruct o as [out|e].
  - exists w', (Return (Some out)). repeat split; try apply X.
    intros Hall Hd. specialize (V Hall Hd). cbn in V.
    destruct (outcome_map _ _) as [r|e]; cbn in *; congruence.
  - exists w', (Raise e). repeat split; try apply X.
    intros Hall Hd. specialize (V Hall Hd). cbn in V.
    destruct (outcome_map _ _) as [r|e']; cbn in *; congruence.
Qed.

Lemma filter_and_threshold_self img c w :
  self (fst (filter_and_threshold gaussian3d medFilter2d interpolation (Some img) c w)) =
    store_controls c (self w).
Proof.
  destruct (filter_and_threshold_spec img c w) as (w' & o & E & X & _).
  rewrite E. apply X.
Qed.

Lemma filter_and_threshold_preserved layer c w :
  preserved w (fst (filter_and_threshold gaussian3d medFilter2d interpolation layer c w)).
Proof.
  destruct layer as [img|]; [|cbn; repeat split; auto].
  destruct (filter_and_threshold_spec img c w) as (w' & o & E & X & _).
  rewrite E. destruct X as (S & _ & _ & L & F). cbn in *.
  repeat split; auto. now rewrite S.
Qed.

Lemma preserved_refl w : preserved w w.
Proof. repeat split; auto. Qed.

Lemma preserved_trans w1 w2 w3 : preserved w1 w2 -> preserved w2 w3 -> preserved w1 w3.
Proof.
  unfold preserved, allocated. intros (S & L & F) (S' & L' & F').
  repeat split; try congruence; try lia.
  intros l Hl. rewrite F', F; auto. lia.
Qed.

Lemma gui_call_preserved ev w :
  preserved w (fst (gui_call gaussian3d medFilter2d interpolation ev w)).
Proof.
  unfold gui_call.
  pose proof (filter_and_threshold_preserved (ev_layer ev) (ev_controls ev) w) as P.
  destruct (filter_and_threshold _ _ _ _ _ w) as [w' [[img|]|e]]; exact P.
Qed.

Lemma event_loop_preserved events : forall w,
  preserved w (fst (event_loop gaussian3d medFilter2d interpolation events w)).
Proof.
  induction events as [|ev rest IH]; intros w; [apply preserved_refl|].
  cbn [event_loop]. unfold bind.
  pose proof (gui_call_preserved ev w) as P.
  assert (R : exists w1, gui_call gaussian3d medFilter2d interpolation ev w = (w1, Return tt)).
  { unfold gui_call.
    destruct (filter_and_threshold _ _ _ _ _ w) as [w' [[img|]|e]]; eauto. }
  destruct R as (w1 & E). rewrite E in *. cbn in P.
  eapply preserved_trans; [exact P|apply IH].
Qed.

(** * The claims about the callback and the session *)

(** C10.  With a falsy layer the callback does nothing: the whole state,
    and so each of the eight parameter fields, is what it was, and the
    value returned is None, not an image. *)
Theorem falsy_layer_is_a_no_op (c : controls) (w : world) :
  filter_and_threshold gaussian3d medFilter2d interpolation None c w = (w, Return None).
Proof. reflexivity. Qed.

(** C5, as the code has it.  Called with a layer, the callback stores, for
    the half-widths [h >= 0] handed over by the three width controls, the
    widths [2 * h + 1]; each stored width is then an odd integer and at
    least 1, whether or not the filtering that follows raises.  Called
    without a layer it stores nothing: the sweeper, its widths included,
    is what it was. *)
Theorem width_normalization (layer : option Image) (c : controls) (w : world) :
  0 <= width_x c -> 0 <= width_y c -> 0 <= width_z c ->
  let s' := self (fst (filter_and_threshold gaussian3d medFilter2d interpolation
                         layer c w)) in
  match layer with
  | Some _ =>
      width_x_val s' = Int (2 * width_x c + 1) /\
      width_y_val s' = Int (2 * width_y c + 1) /\
      width_z_val s' = Int (2 * width_z c + 1) /\
      widths_odd s'
  | None => s' = self w
  end.
Proof.
  intros Hx Hy Hz s'. subst s'. destruct layer as [img|]; [|reflexivity].
  rewrite filter_and_threshold_self.
  do 3 (split; [reflexivity|]). now apply store_controls_widths_odd.
Qed.

(** X16.  Over a whole session: once the widths are odd (as the defaults
    3/3/3 are), they stay odd through every control change, with or without a
    layer. *)
Lemma event_loop_widths_odd events : forall w,
  Forall (fun ev => 0 <= width_x (ev_controls ev) /\ 0 <= width_y (ev_controls ev) /\
                    0 <= width_z (ev_controls ev)) events ->
  widths_odd (self w) ->
  widths_odd (self (fst (event_loop gaussian3d medFilter2d interpolation events w))).
Proof.
  induction events as [|ev rest IH]; intros w Hall Hw; [exact Hw|].
  inversion Hall as [|? ? (Hx & Hy & Hz) Hrest]; subst.
  cbn [event_loop]. unfold bind.
  assert (R : exists w1, gui_call gaussian3d medFilter2d interpolation ev w = (w1, Return tt) /\
                         widths_odd (self w1)).
  { unfold gui_call. destruct ev as [[img|] c]; cbn [ev_layer ev_controls] in *.
    - pose proof (filter_and_threshold_self img c w) as Hs.
      pose proof (store_controls_widths_odd c (self w) Hx Hy Hz) as Hodd.
      rewrite <- Hs in Hodd.
      destruct (filter_and_threshold _ _ _ _ _ w) as [w' [[out|]|e]]; eauto.
    - cbn. eauto. }
  destruct R as (w1 & E & Hw1). rewrite E. now apply IH.
Qed.

(** C9.  Every recomputation works on deep copies: after any number of
    control changes the stack list names the same arrays, and each of
    them holds what it held before. *)
Theorem loaded_volumes_unchanged (events : list event) (w : world) :
  Forall (allocated (mem w)) (stacks (self w)) ->
  let w' := fst (event_loop gaussian3d medFilter2d interpolation events w) in
  stacks (self w') = stacks (self w) /\
  Forall (fun stack => read (mem w') stack = read (mem w) stack) (stacks (self w)).
Proof.
  intros Hall w'. destruct (event_loop_preserved events w) as (S & _ & F).
  split; [exact S|].
  eapply Forall_impl; [exact Hall|].
  intros l Hl. cbn. unfold read. now rewrite F.
Qed.

(** C8.  When the blur and the median filter return for every stack, the
    callback returns one boolean volume per stack; the cutoff is the
    quantile of the data of the layer as it was before the recomputation
    (the filters have not touched it), and each volume marks exactly the
    samples of the median-filtered stack that lie strictly above it. *)
Theorem threshold_is_layer_quantile (img : Image) (c : controls) (w : world)
    (filtered : list ndarray) (cutoff : float) :
  Forall (allocated (mem w)) (stacks (self w)) ->
  allocated (mem w) (data img) ->
  outcome_map
    (fun stack => median_filtered gaussian3d medFilter2d (store_controls c (self w))
                    (read (mem w) stack))
    (stacks (self w)) = Return filtered ->
  np_quantile interpolation (flat (read (mem w) (data img))) (c_quantile c) =
    Return cutoff ->
  exists out,
    snd (filter_and_threshold gaussian3d medFilter2d interpolation (Some img) c w) = Return (Some out) /\
    Forall2 (marks_above cutoff) filtered out.
Proof.
  intros Hall Hd Hf Hq.
  destruct (filter_and_threshold_spec img c w) as (w' & o & E & _ & V).
  rewrite E. cbn [snd]. rewrite (V Hall Hd).
  rewrite (outcome_map_thresholded _ _ _ _ _ _ _ filtered cutoff Hf Hq).
  eexists. split; [reflexivity|].
  clear. induction filtered; cbn; constructor; auto using greater_marks_above.
Qed.

(** C2, as the code has it.  The callback checks nothing itself and has
    no InvalidParameter.  With at least one stack, a median index outside
    [-len, len) raises IndexError once the blur of the first stack has
    returned, and a quantile outside [0, 1] raises ValueError once the
    first stack is filtered.  Whatever a recomputation raises, the GUI
    call ends normally (only that recomputation is lost), the display,
    the output and the loaded volumes are as before, and the parameter
    fields hold the new values. *)
Theorem failed_recomputation (img : Image) (c : controls) (w : world) :
  Forall (allocated (mem w)) (stacks (self w)) ->
  allocated (mem w) (data img) ->
  let s' := store_controls c (self w) in
  let run := filter_and_threshold gaussian3d medFilter2d interpolation (Some img) c w in
  (forall stack rest blurred,
     stacks (self w) = stack :: rest ->
     filter_output (gaussian3d (read (mem w) stack) (gauss_of s')) = Return blurred ->
     c_median_index c < - Z.of_nat (length (median_sizes (self w))) \/
       Z.of_nat (length (median_sizes (self w))) <= c_median_index c ->
     snd run = Raise IndexError) /\
  (forall stack rest filtered,
     stacks (self w) = stack :: rest ->
     median_filtered gaussian3d medFilter2d s' (read (mem w) stack) = Return filtered ->
     (c_quantile c < 0 \/ 1 < c_quantile c)%Q ->
     snd run = Raise ValueError) /\
  (forall e, snd run = Raise e ->
     gui_call gaussian3d medFilter2d interpolation {| ev_layer := Some img; ev_controls := c |} w =
       (fst run, Return tt) /\
     self (fst run) = s' /\
     display (fst run) = display w /\
     stdout (fst run) = stdout w /\
     preserved w (fst run)).
Proof.
  intros Hall Hd s' run.
  pose proof (filter_and_threshold_preserved (Some img) c w) as P. fold run in P.
  destruct (filter_and_threshold_spec img c w) as (w' & o & E & X & V).
  specialize (V Hall Hd). fold s' in V.
  assert (Hrun : run = (w', o)) by exact E.
  rewrite Hrun in *. cbn [fst snd] in *. clear E.
  split; [|split].
  - intros stack rest blurred Hst Hb Hi. rewrite V, Hst. cbn [outcome_map].
    unfold thresholded_stack at 1, median_filtered. fold (gauss_of s'). rewrite Hb.
    cbn [outcome_bind store_controls median_sizes median_index s' list_getitem].
    now rewrite seq_getitem_out_of_range.
  - intros stack rest filtered Hst Hf Hq. rewrite V, Hst. cbn [outcome_map].
    unfold thresholded_stack at 1. rewrite Hf. cbn [outcome_bind].
    cbn [s' store_controls quantile num_to_Q].
    now rewrite np_quantile_invalid.
  - intros e He. clear V. subst o.
    unfold gui_call. cbn [ev_layer ev_controls]. fold run. rewrite Hrun.
    destruct X as (S & D & O & _). cbn in S, D, O.
    repeat split; auto; apply P.
Qed.

(** What the finalisation does with the state the event loop leaves. *)
Lemma finalize_spec (w : world) :
  let s := self w in
  match list_getitem (median_sizes s) (median_index s) with
  | Return size =>
      exists w', finalize w = (w', Return None) /\
        mem w' = mem w /\ display w' = display w /\
        stdout w' = stdout w ++ [{| r_gaussian := gauss_of s; r_median := size;
                                    r_quantile := quantile s |}] /\
        parameter_set (self w') = parameter_set s /\
        stacks (self w') = stacks s /\
        gaussian (self w') = Some (gauss_of s) /\
        median (self w') = Some size
  | Raise e => finalize w = (w, Raise e)
  end.
Proof.
  intros s. unfold finalize, bind, lift. cbn [get]. fold s.
  destruct (list_getitem (median_sizes s) (median_index s)) as [size|e]; [|reflexivity].
  eexists. split; [reflexivity|]. cbn. repeat split.
Qed.

(** C1, as the code has it.  [sweep_parameters] never returns a record:
    when it returns, it returns None.  The record whose fields are the
    parameters stored last is only printed, and its [gaussian] and
    [median] entries are kept as attributes of the sweeper. *)
Theorem sweep_parameters_returns_None (events : list event) (w : world) :
  match sweep_parameters gaussian3d medFilter2d interpolation events w with
  | (w', Return returned_value) =>
      returned_value = None /\
      exists r, stdout w' = stdout w ++ [r] /\
        r_gaussian r = gauss_of (self w') /\
        list_getitem (median_sizes (self w')) (median_index (self w')) =
          Return (r_median r) /\
        r_quantile r = quantile (self w') /\
        gaussian (self w') = Some (r_gaussian r) /\
        median (self w') = Some (r_median r)
  | (w', Raise e) => stdout w' = stdout w
  end.
Proof.
  unfold sweep_parameters, bind at 1, modify.
  set (w0 := set_mem _ w).
  unfold bind.
  assert (R : exists w1, event_loop gaussian3d medFilter2d interpolation events w0 = (w1, Return tt) /\
                         stdout w1 = stdout w).
  { assert (G : forall evs v, exists v1,
              event_loop gaussian3d medFilter2d interpolation evs v = (v1, Return tt) /\
              stdout v1 = stdout v).
    { induction evs as [|ev rest IH]; intros v; [cbn; eauto|].
      cbn [event_loop]. unfold bind.
      assert (C : exists v1, gui_call gaussian3d medFilter2d interpolation ev v = (v1, Return tt) /\
                             stdout v1 = stdout v).
      { unfold gui_call. destruct ev as [[img|] c]; cbn [ev_layer ev_controls].
        - destruct (filter_and_threshold_spec img c v) as (v' & o & E & X & _).
          rewrite E. destruct X as (_ & _ & O & _). cbn in O.
          destruct o as [[out|]|e]; eauto.
        - cbn. eauto. }
      destruct C as (v1 & E1 & O1). rewrite E1.
      destruct (IH v1) as (v2 & E2 & O2). exists v2. split; [exact E2|congruence]. }
    destruct (G events w0) as (w1 & E & O). exists w1. split; [exact E|exact O]. }
  destruct R as (w1 & E & O). rewrite E.
  pose proof (finalize_spec w1) as F. cbn zeta in F.
  destruct (list_getitem (median_sizes (self w1)) (median_index (self w1)))
    as [size|e] eqn:Hsize.
  - destruct F as (w' & EF & _ & _ & HO & HP & _ & HG & HM). rewrite EF.
    split; [reflexivity|].
    eexists. split; [rewrite HO, O; reflexivity|].
    unfold parameter_set in HP. inversion HP as [[Hwx Hwy Hsx Hsy Hwz Hsz Hms Hmi Hq]].
    cbn [r_gaussian r_median r_quantile]. unfold gauss_of.
    rewrite Hwx, Hwy, Hsx, Hsy, Hwz, Hsz, Hms, Hmi, Hq.
    repeat split; auto.
  - rewrite F. exact O.
Qed.

End SweepProperties.

(** * The quantile cutoff *)

Lemma sorted_lookup_le (s : list Z) :
  StronglySorted Z.le s ->
  forall (i j : nat) x y, (i <= j)%nat -> s !! i = Some x -> s !! j = Some y -> x <= y.
Proof.
  induction 1 as [|a l Hl IH Ha]; intros i j x y Hij Hi Hj; [discriminate|].
  destruct i as [|i], j as [|j]; cbn in *; try lia.
  - assert (x = y) by congruence. lia.
  - inversion Hi; subst. rewrite Forall_forall in Ha.
    apply Ha, list_elem_of_lookup. eauto.
  - eapply IH; [|eassumption..]. lia.
Qed.

Lemma sample_mono (s : list Z) (i j : Z) :
  StronglySorted Z.le s -> 0 <= i -> i <= j -> j < Z.of_nat (length s) ->
  (sample s i <= sample s j)%Q.
Proof.
  intros Hs Hi Hij Hj. unfold sample.
  destruct (lookup_lt_is_Some_2 s (Z.to_nat i)) as [x Hx]; [lia|].
  destruct (lookup_lt_is_Some_2 s (Z.to_nat j)) as [y Hy]; [lia|].
  rewrite Hx, Hy. cbn. rewrite <- Zle_Qle.
  eapply sorted_lookup_le; [exact Hs| |exact Hx|exact Hy]. lia.
Qed.

Lemma lerp_bounds (a b g : Q) :
  (a <= b)%Q -> (0 <= g)%Q -> (g <= 1)%Q -> (a <= a + (b - a) * g /\ a + (b - a) * g <= b)%Q.
Proof. intros. split; nra. Qed.

Lemma lerp_mono (a b g1 g2 : Q) :
  (a <= b)%Q -> (g1 <= g2)%Q -> (a + (b - a) * g1 <= a + (b - a) * g2)%Q.
Proof. intros. nra. Qed.

(** The interpolated value does not go down when the quantile goes up. *)
Lemma interpolate_mono (s : list Z) (q1 q2 : Q) :
  StronglySorted Z.le s -> s <> [] ->
  (0 <= q1)%Q -> (q1 <= q2)%Q -> (q2 <= 1)%Q ->
  (interpolate s q1 <= interpolate s q2)%Q.
Proof.
  intros Hs Hne H0 H12 H1. unfold interpolate.
  set (n := Z.of_nat (length s)).
  assert (Hn : 1 <= n) by (destruct s; [congruence|cbn in n; lia]).
  set (N := inject_Z (n - 1)).
  assert (HN : (0 <= N)%Q) by (unfold N; rewrite <- (Zle_Qle 0); lia).
  set (p1 := (q1 * N)%Q). set (p2 := (q2 * N)%Q).
  assert (Hp1 : (0 <= p1)%Q) by (unfold p1; nra).
  assert (Hp12 : (p1 <= p2)%Q) by (unfold p1, p2; nra).
  assert (Hp2 : (p2 <= N)%Q) by (unfold p2; nra).
  set (lo1 := Qfloor p1). set (lo2 := Qfloor p2).
  assert (Hlo1 : 0 <= lo1) by (apply (Qfloor_resp_le 0 p1), Hp1).
  assert (Hlo12 : lo1 <= lo2) by (apply Qfloor_resp_le, Hp12).
  assert (Hlo2 : lo2 <= n - 1).
  { unfold lo2. rewrite <- (Qfloor_Z (n - 1)). apply Qfloor_resp_le, Hp2. }
  pose proof (Qfloor_le p1) as Hf1. pose proof (Qfloor_le p2) as Hf2.
  pose proof (Qlt_floor p1) as Hc1. pose proof (Qlt_floor p2) as Hc2.
  fold lo1 in Hf1, Hc1. fold lo2 in Hf2, Hc2.
  rewrite inject_Z_plus in Hc1, Hc2. change (inject_Z 1) with 1%Q in Hc1, Hc2.
  assert (Hs1 : (sample s lo1 <= sample s (Z.min (lo1 + 1) (n - 1)))%Q)
    by (apply sample_mono; auto; lia).
  assert (Hs2 : (sample s lo2 <= sample s (Z.min (lo2 + 1) (n - 1)))%Q)
    by (apply sample_mono; auto; lia).
  destruct (Z.eq_dec lo1 lo2) as [Heq|Hneq].
  - rewrite <- Heq in *. apply lerp_mono; [exact Hs1|]. lra.
  - assert (Hmid : (sample s (Z.min (lo1 + 1) (n - 1)) <= sample s lo2)%Q)
      by (apply sample_mono; auto; lia).
    destruct (lerp_bounds _ _ (p1 - inject_Z lo1) Hs1) as [_ Hup]; [lra|lra|].
    destruct (lerp_bounds _ _ (p2 - inject_Z lo2) Hs2) as [Hdown _]; [lra|lra|].
    eapply Qle_trans; [exact Hup|]. eapply Qle_trans; [exact Hmid|exact Hdown].
Qed.

Lemma np_quantile_valid (itp : list Z -> Q -> float) (a : list Z) (q : Q) :
  (0 <= q)%Q -> (q <= 1)%Q ->
  np_quantile itp a q =
    Return (match a with [] => NaN | _ => itp (sort_samples a) q end).
Proof.
  intros H0 H1. unfold np_quantile.
  replace (Qle_bool 0 q && Qle_bool q 1) with true; [now destruct a|].
  symmetry. apply andb_true_iff. now rewrite !Qle_bool_iff.
Qed.

Lemma sort_samples_sorted (a : list Z) : StronglySorted Z.le (sort_samples a).
Proof. apply StronglySorted_merge_sort; apply _. Qed.

Lemma sort_samples_nonempty (a : list Z) : a <> [] -> sort_samples a <> [].
Proof.
  intros Ha Hs. apply Ha. apply Permutation_nil_r.
  rewrite <- Hs. symmetry. apply merge_sort_Permutation.
Qed.

(** A higher cutoff marks fewer samples. *)
Lemma gt_antitone (x : Z) (c1 c2 : Q) :
  (c1 <= c2)%Q -> gt x (Fin c2) = true -> gt x (Fin c1) = true.
Proof.
  rewrite !gt_exceeds. cbn. intros Hc Hx. eapply Qle_lt_trans; eassumption.
Qed.

Lemma count_true_le (bs2 bs1 : list bool) :
  Forall2 (fun b2 b1 : bool => b2 = true -> b1 = true) bs2 bs1 ->
  (length (filter (fun b => b = true) bs2) <= length (filter (fun b => b = true) bs1))%nat.
Proof.
  induction 1 as [|b2 b1 l2 l1 Hb _ IH]; [reflexivity|].
  rewrite !filter_cons.
  destruct b2, b1; repeat case_decide; cbn; try congruence; try lia.
Qed.

(** A cutoff that marks no more than another: a higher finite value, or
    nan, which marks nothing. *)
Lemma gt_not_above (x : Z) (c1 c2 : float) :
  not_above c1 c2 -> gt x c2 = true -> gt x c1 = true.
Proof.
  destruct c1 as [|a], c2 as [|b]; cbn [not_above]; try discriminate; try tauto.
  apply gt_antitone.
Qed.

(** Without rounding the cutoff does not go down when the quantile goes
    up. *)
Lemma exact_interpolation_not_above (samples : list Z) (q1 q2 : Q) :
  samples <> [] -> (0 <= q1)%Q -> (q1 <= q2)%Q -> (q2 <= 1)%Q ->
  not_above (exact_interpolation (sort_samples samples) q1)
            (exact_interpolation (sort_samples samples) q2).
Proof.
  intros Hne H0 H12 H1. cbn [not_above exact_interpolation].
  apply interpolate_mono; auto using sort_samples_sorted, sort_samples_nonempty.
Qed.



(** * Median size selection *)

(** C3, as the code has it.  With the fixed list [1, 3, 5] the indices
    0, 1, 2 select 1, 3, 5; the indices -3, -2, -1 select them too, counted
    from the end; every other index raises IndexError (the code has no
    InvalidParameter). *)
Theorem median_size_selection (stacks0 : list loc) (i : Z) :
  list_getitem (median_sizes (__init__ stacks0 None)) (Int i) =
    if (i =? 0) || (i =? -3) then Return (Int 1)
    else if (i =? 1) || (i =? -2) then Return (Int 3)
    else if (i =? 2) || (i =? -1) then Return (Int 5)
    else Raise IndexError.
Proof.
  cbn [__init__ median_sizes no_params p_median_sizes dict_get_or default list_getitem].
  destruct (Z_lt_le_dec i (-3)) as [Hlo|Hlo];
    [|destruct (Z_lt_le_dec i 3) as [Hhi|Hhi]].
  - rewrite seq_getitem_out_of_range by (cbn; lia).
    repeat (match goal with |- context [?a =? ?b] =>
              replace (a =? b) with false by (symmetry; apply Z.eqb_neq; lia) end).
    reflexivity.
  - assert (Hi : i = -3 \/ i = -2 \/ i = -1 \/ i = 0 \/ i = 1 \/ i = 2) by lia.
    destruct Hi as [->|[->|[->|[->|[->| ->]]]]]; reflexivity.
  - rewrite seq_getitem_out_of_range by (cbn; lia).
    repeat (match goal with |- context [?a =? ?b] =>
              replace (a =? b) with false by (symmetry; apply Z.eqb_neq; lia) end).
    reflexivity.
Qed.

(** The index -1 lies outside [0, 2] and selects size 5 instead of
    failing. *)
Lemma median_index_minus_one_selects :
  (-1 < 0 \/ 2 < -1) /\
  list_getitem (median_sizes (__init__ [] None)) (Int (-1)) = Return (Int 5) /\
  ~ raises (list_getitem (median_sizes (__init__ [] None)) (Int (-1))).
Proof. split; [lia|]. split; [reflexivity|]. cbn. tauto. Qed.

(** * Decoding an extractor *)

Lemma decode_quantile_spec (e : Extractor.t) (h : heap) :
  decode_quantile e h =
    (h, Return (match Extractor.quantile e with
                | Some q => q
                | None => Float (99 # 100)
                end)).
Proof. unfold decode_quantile, try_except, lift. now destruct (Extractor.quantile e). Qed.

Lemma decode_median_index_spec (e : Extractor.t) (sizes : list num) (h : heap) :
  decode_median_index e sizes h =
    (h, Return (match Extractor.median e with
                | Some m => match list_index sizes m with
                            | Return i => Int i
                            | Raise _ => Int 1
                            end
                | None => Int 1
                end)).
Proof.
  unfold decode_median_index, try_except, bind, lift.
  destruct (Extractor.median e) as [m|]; [|reflexivity]. cbn.
  now destruct (list_index sizes m).
Qed.

Lemma pull_volumes_returns (e : Extractor.t) (count : nat) : forall i acc h,
  (forall k, i <= k < i + Z.of_nat count -> exists l, Extractor.get_t e k = Return l) ->
  exists h' ls, pull_volumes e i count acc h = (h', Return ls) /\
                length ls = (length acc + count)%nat.
Proof.
  induction count as [|count IH]; intros i acc h Hget.
  - exists h, acc. split; [reflexivity|lia].
  - destruct (Hget i) as [l Hl]; [lia|].
    cbn [pull_volumes]. unfold bind at 1, lift. rewrite Hl.
    unfold bind at 1. cbn [deepcopy alloc].
    destruct (IH (i + 1) (acc ++ [length h]) (h ++ [read h l])) as (h' & ls & E & Hlen).
    { intros k Hk. apply Hget. lia. }
    exists h', ls. split; [exact E|]. rewrite Hlen, length_app. cbn. lia.
Qed.

(** What [from_extractor] does once the first [try] statement is over. *)
Lemma from_extractor_after_decode (e : Extractor.t) (timepoints : Z) (h : heap) :
  from_extractor e timepoints h =
    match decode_gaussian e h with
    | (h1, Raise x) => (h1, Raise x)
    | (h1, Return None) => (h1, Raise UnboundLocalError)
    | (h1, Return (Some v)) =>
        let q := match Extractor.quantile e with
                 | Some q => q
                 | None => Float (99 # 100)
                 end in
        let idx := match Extractor.median e with
                   | Some m => match list_index [Int 1; Int 3; Int 5] m with
                               | Return i => Int i
                               | Raise _ => Int 1
                               end
                   | None => Int 1
                   end in
        match pull_volumes e 0 (Z.to_nat timepoints) [] h1 with
        | (h2, Return stacks0) =>
            (h2, Return {| stacks := stacks0;
                           width_x_val := l_width_x_val v;
                           width_y_val := l_width_y_val v;
                           width_z_val := l_width_z_val v;
                           sigma_x := l_sigma_x v;
                           sigma_y := l_sigma_y v;
                           sigma_z := l_sigma_z v;
                           median_sizes := [Int 1; Int 3; Int 5];
                           median_index := idx;
                           quantile := q;
                           gaussian := None;
                           median := None |})
        | (h2, Raise x) => (h2, Raise x)
        end
    end.
Proof.
  unfold from_extractor. unfold bind at 1.
  destruct (decode_gaussian e h) as [h1 [bound|x]]; [|reflexivity].
  unfold bind at 1. rewrite decode_quantile_spec.
  unfold bind at 1. rewrite decode_median_index_spec.
  unfold bind at 1. destruct bound as [v|]; [|reflexivity].
  cbn [pack_params ret]. unfold bind.
  now destruct (pull_volumes e 0 (Z.to_nat timepoints) [] h1) as [h2 [stacks0|x]].
Qed.

Lemma decode_gaussian_tuple4 (e : Extractor.t) (h : heap) (w s wz sz : num) :
  Extractor.gaussian e = Some (PyTuple [w; s; wz; sz]) ->
  decode_gaussian e h =
    (h, Return (Some {| l_width_x_val := w; l_width_y_val := w; l_width_z_val := wz;
                        l_sigma_x := s; l_sigma_y := s; l_sigma_z := sz |})).
Proof.
  intros Hg.
  unfold decode_gaussian, try_except, decode_body, gaussian_len, gaussian_item, bind, lift.
  rewrite Hg. reflexivity.
Qed.

Lemma decode_gaussian_tuple6 (e : Extractor.t) (h : heap) (wx wy sx sy wz sz : num) :
  Extractor.gaussian e = Some (PyTuple [wx; wy; sx; sy; wz; sz]) ->
  decode_gaussian e h =
    (h, Return (Some {| l_width_x_val := wx; l_width_y_val := wy; l_width_z_val := wz;
                        l_sigma_x := sx; l_sigma_y := sy; l_sigma_z := sz |})).
Proof.
  intros Hg.
  unfold decode_gaussian, try_except, decode_body, gaussian_len, gaussian_item, bind, lift.
  rewrite Hg. reflexivity.
Qed.

(** A tuple of any other length leaves the six names unbound: no branch
    runs, nothing raises inside the [try], the handler is not entered. *)
Lemma decode_gaussian_other_arity (e : Extractor.t) (h : heap) (items : list num) :
  Extractor.gaussian e = Some (PyTuple items) ->
  length items <> 4%nat -> length items <> 6%nat ->
  decode_gaussian e h = (h, Return None).
Proof.
  intros Hg H4 H6.
  unfold decode_gaussian, try_except, decode_body, gaussian_len, bind, lift.
  rewrite Hg. cbn [getattr py_len].
  replace (Z.of_nat (length items) =? 4) with false by (symmetry; apply Z.eqb_neq; lia).
  replace (Z.of_nat (length items) =? 6) with false by (symmetry; apply Z.eqb_neq; lia).
  reflexivity.
Qed.

(** Without a [gaussian] attribute the handler raises again. *)
Lemma decode_gaussian_missing (e : Extractor.t) (h : heap) :
  Extractor.gaussian e = None ->
  decode_gaussian e h = (h, Raise AttributeError).
Proof.
  intros Hg.
  unfold decode_gaussian, try_except, decode_body, decode_handler,
    gaussian_len, gaussian_item, bind, lift.
  rewrite Hg. reflexivity.
Qed.

(** C7.  When the timepoints can be read, a 4-tuple [(w, s, wz, sz)] is
    decoded with [w] and [s] for both x and y, and a 6-tuple
    [(wx, wy, sx, sy, wz, sz)] position by position. *)
Theorem from_extractor_decodes (e : Extractor.t) (timepoints : Z) (h : heap) :
  (forall i, 0 <= i < timepoints -> exists l, Extractor.get_t e i = Return l) ->
  (forall w s wz sz,
     Extractor.gaussian e = Some (PyTuple [w; s; wz; sz]) ->
     exists h' fs, from_extractor e timepoints h = (h', Return fs) /\
       width_x_val fs = w /\ width_y_val fs = w /\
       sigma_x fs = s /\ sigma_y fs = s /\
       width_z_val fs = wz /\ sigma_z fs = sz) /\
  (forall wx wy sx sy wz sz,
     Extractor.gaussian e = Some (PyTuple [wx; wy; sx; sy; wz; sz]) ->
     exists h' fs, from_extractor e timepoints h = (h', Return fs) /\
       width_x_val fs = wx /\ width_y_val fs = wy /\
       sigma_x fs = sx /\ sigma_y fs = sy /\
       width_z_val fs = wz /\ sigma_z fs = sz).
Proof.
  intros Hget.
  assert (Hpull : forall h1, exists h2 ls,
            pull_volumes e 0 (Z.to_nat timepoints) [] h1 = (h2, Return ls)).
  { intros h1. destruct (pull_volumes_returns e (Z.to_nat timepoints) 0 [] h1)
      as (h2 & ls & E & _); [|eauto].
    intros k Hk. apply Hget. lia. }
  split.
  - intros w s wz sz Hg. rewrite from_extractor_after_decode.
    rewrite (decode_gaussian_tuple4 e h w s wz sz Hg). cbn zeta.
    destruct (Hpull h) as (h2 & ls & E). rewrite E.
    eexists _, _. split; [reflexivity|]. cbn. repeat split.
  - intros wx wy sx sy wz sz Hg. rewrite from_extractor_after_decode.
    rewrite (decode_gaussian_tuple6 e h wx wy sx sy wz sz Hg). cbn zeta.
    destruct (Hpull h) as (h2 & ls & E). rewrite E.
    eexists _, _. split; [reflexivity|]. cbn. repeat split.
Qed.

(** X5.  The fallbacks of the second and third [try] statement: wherever
    decoding gets past the Gaussian tuple, a missing quantile becomes 0.99
    and a median that is missing or not in the list becomes index 1. *)
Lemma from_extractor_quantile_median_fallback (e : Extractor.t) (timepoints : Z)
    (h h' : heap) (fs : FilterSweeper) :
  from_extractor e timepoints h = (h', Return fs) ->
  (Extractor.quantile e = None -> quantile fs = Float (99 # 100)) /\
  (Extractor.median e = None -> median_index fs = Int 1) /\
  (forall m, Extractor.median e = Some m ->
     raises (list_index [Int 1; Int 3; Int 5] m) -> median_index fs = Int 1).
Proof.
  rewrite from_extractor_after_decode.
  destruct (decode_gaussian e h) as [h1 [[v|]|x]]; try discriminate.
  cbn zeta.
  destruct (pull_volumes e 0 (Z.to_nat timepoints) [] h1) as [h2 [ls|x]]; try discriminate.
  intros Heq. inversion Heq; subst. cbn. repeat split.
  - now intros ->.
  - now intros ->.
  - intros m -> Hr. now destruct (list_index [Int 1; Int 3; Int 5] m).
Qed.

(** X1.  A Gaussian tuple of a length other than 4 and 6 is not decoded and
    not defaulted: packing the parameters raises UnboundLocalError, before
    any timepoint is read. *)
Lemma from_extractor_other_arity (e : Extractor.t) (timepoints : Z) (h : heap)
    (items : list num) :
  Extractor.gaussian e = Some (PyTuple items) ->
  length items <> 4%nat -> length items <> 6%nat ->
  from_extractor e timepoints h = (h, Raise UnboundLocalError).
Proof.
  intros Hg H4 H6. rewrite from_extractor_after_decode.
  now rewrite (decode_gaussian_other_arity e h items Hg H4 H6).
Qed.

(** An extractor without the attribute is not defaulted either: the
    handler reads [e.gaussian] again. *)
Lemma from_extractor_missing_gaussian (e : Extractor.t) (timepoints : Z) (h : heap) :
  Extractor.gaussian e = None ->
  from_extractor e timepoints h = (h, Raise AttributeError).
Proof.
  intros Hg. rewrite from_extractor_after_decode.
  now rewrite (decode_gaussian_missing e h Hg).
Qed.

(** The handler can be reached and can succeed, for instance on a mapping
    with four entries that has the keys 2, 3 and 5 but not 0. *)
Example from_extractor_fallback_reached :
  exists h' fs,
    from_extractor
      (extractor_with (Some (PyDict [(2, Float 1); (3, Float (3 # 2)); (5, Float 2);
                                     (7, Int 0)])))
      1 [volume_2x2] = (h', Return fs) /\
    gauss_of fs = (Int 1, Int 1, Float 1, Float (3 # 2), Int 1, Float 2).
Proof. eexists _, _. split; [vm_compute; reflexivity|reflexivity]. Qed.

(** C4, on a 7-tuple.  The tuple has positions 2, 3 and 5, so the fallback
    the claim describes would be width 1 with sigmas 1.0, 1.5, 2.0; the
    code raises UnboundLocalError instead. *)
Theorem from_extractor_seven_tuple :
  from_extractor (extractor_with (Some tuple7)) 1 [volume_2x2] =
    ([volume_2x2], Raise UnboundLocalError).
Proof. reflexivity. Qed.

(** * The theorems on a concrete session

    One volume of four samples, the in-place blur [blur_in_place], the
    median stand-in [cap_filter] and the quantile without rounding. *)

Lemma one_volume_world_allocated :
  Forall (allocated (mem one_volume_world)) (stacks (self one_volume_world)).
Proof. repeat constructor. Defined.

Lemma worm_layer_allocated : allocated (mem one_volume_world) (data worm_layer).
Proof. unfold allocated. cbn. lia. Defined.

Lemma width_normalization_witness :
  let s' := self (fst (filter_and_threshold blur_in_place cap_filter exact_interpolation
                         (Some worm_layer) default_controls one_volume_world)) in
  width_x_val s' = Int 3 /\ width_y_val s' = Int 3 /\ width_z_val s' = Int 3 /\
  widths_odd s'.
Proof.
  apply (width_normalization blur_in_place cap_filter exact_interpolation
           (Some worm_layer) default_controls one_volume_world); cbn; lia.
Defined.

(** Without a layer the half-width 5 is received and not stored: the
    sweeper built with the widths 4, 3 and 7 keeps them, and 4 is even. *)
Lemma half_width_without_layer_is_not_stored :
  let c := half_widths_5_5_5 in
  let s' := self (fst (filter_and_threshold blur_in_place cap_filter exact_interpolation
                         None c (new_session widths_4_3_7 []))) in
  0 <= width_x c /\
  width_x_val s' = Int 4 /\
  width_x_val s' <> Int (2 * width_x c + 1) /\
  ~ odd_width (width_x_val s') /\
  ~ widths_odd s'.
Proof.
  cbn zeta. split; [cbn; lia|]. split; [reflexivity|].
  split; [discriminate|]. split.
  - cbn. intros [H _]. discriminate H.
  - unfold widths_odd. cbn. intros [[H _] _]. discriminate H.
Qed.

Lemma loaded_volumes_unchanged_witness :
  let events := [ {| ev_layer := Some worm_layer; ev_controls := default_controls |};
                  {| ev_layer := Some worm_layer; ev_controls := index3_controls |} ] in
  let w' := fst (event_loop blur_in_place cap_filter exact_interpolation events one_volume_world) in
  stacks (self w') = [0%nat] /\
  Forall (fun stack => read (mem w') stack = read (mem one_volume_world) stack) [0%nat].
Proof.
  apply (loaded_volumes_unchanged blur_in_place cap_filter exact_interpolation _ one_volume_world).
  exact one_volume_world_allocated.
Defined.

Lemma threshold_is_layer_quantile_witness :
  exists out,
    snd (filter_and_threshold blur_in_place cap_filter exact_interpolation (Some worm_layer)
           default_controls one_volume_world) = Return (Some out) /\
    Forall2 (marks_above (Fin (2890 # 10)))
      [ {| shape := [1%nat; 2%nat; 2%nat]; flat := [11; 300; 21; 31] |} ] out.
Proof.
  apply (threshold_is_layer_quantile blur_in_place cap_filter exact_interpolation worm_layer
           default_controls one_volume_world).
  - exact one_volume_world_allocated.
  - exact worm_layer_allocated.
  - reflexivity.
  - reflexivity.
Defined.

Lemma failed_recomputation_witness :
  let run := filter_and_threshold blur_in_place cap_filter exact_interpolation (Some worm_layer)
               index3_controls one_volume_world in
  snd run = Raise IndexError /\
  gui_call blur_in_place cap_filter exact_interpolation
    {| ev_layer := Some worm_layer; ev_controls := index3_controls |} one_volume_world =
    (fst run, Return tt) /\
  self (fst run) = store_controls index3_controls (self one_volume_world) /\
  display (fst run) = display one_volume_world /\
  stdout (fst run) = stdout one_volume_world /\
  preserved one_volume_world (fst run).
Proof.
  intros run.
  destruct (failed_recomputation blur_in_place cap_filter exact_interpolation worm_layer index3_controls
              one_volume_world one_volume_world_allocated worm_layer_allocated)
    as (Hindex & _ & Hafter).
  assert (Hraise : snd run = Raise IndexError).
  { apply (Hindex 0%nat [] {| shape := [1%nat; 2%nat; 2%nat]; flat := [11; 401; 21; 31] |});
      [reflexivity|reflexivity|cbn; lia]. }
  split; [exact Hraise|]. exact (Hafter IndexError Hraise).
Defined.

(** The median index 3 makes the recomputation raise IndexError, and the
    parameters are then no longer the prior ones: the index stored is 3. *)
Lemma index3_raises_and_parameters_change :
  let run := filter_and_threshold blur_in_place cap_filter exact_interpolation (Some worm_layer)
               index3_controls one_volume_world in
  snd run = Raise IndexError /\
  median_index (self one_volume_world) = Int 1 /\
  median_index (self (fst run)) = Int 3 /\
  parameter_set (self (fst run)) <> parameter_set (self one_volume_world).
Proof.
  cbn zeta. split; [reflexivity|]. split; [reflexivity|]. split; [reflexivity|].
  intros H. discriminate H.
Qed.


Lemma extractor_with_get_t (g : option pyobj) :
  forall i, 0 <= i < 1 -> exists l, Extractor.get_t (extractor_with g) i = Return l.
Proof.
  intros i Hi. exists 0%nat. cbn.
  destruct (Z.eqb_spec i 0) as [_|Hne]; [reflexivity|lia].
Defined.

(** The two tuples of the specification: (3, 1.5, 5, 2.0) and
    (3, 5, 1.0, 1.5, 7, 2.0). *)
Lemma from_extractor_decodes_witness :
  (exists h' fs,
     from_extractor (extractor_with (Some tuple4)) 1 [volume_2x2] = (h', Return fs) /\
     width_x_val fs = Int 3 /\ width_y_val fs = Int 3 /\
     sigma_x fs = Float (3 # 2) /\ sigma_y fs = Float (3 # 2) /\
     width_z_val fs = Int 5 /\ sigma_z fs = Float 2) /\
  (exists h' fs,
     from_extractor (extractor_with (Some tuple6)) 1 [volume_2x2] = (h', Return fs) /\
     width_x_val fs = Int 3 /\ width_y_val fs = Int 5 /\
     sigma_x fs = Float 1 /\ sigma_y fs = Float (3 # 2) /\
     width_z_val fs = Int 7 /\ sigma_z fs = Float 2).
Proof.
  split.
  - apply (proj1 (from_extractor_decodes (extractor_with (Some tuple4)) 1 [volume_2x2]
                    (extractor_with_get_t _))).
    reflexivity.
  - apply (proj2 (from_extractor_decodes (extractor_with (Some tuple6)) 1 [volume_2x2]
                    (extractor_with_get_t _))).
    reflexivity.
Defined.

(** The session of one volume with no control change at all: the record
    (3, 3, 1, 1, 3, 1), 3, 0.9 is printed and kept in part, and the value
    returned is None. *)
Example sweep_of_default_session :
  let run := sweep_parameters blur_in_place cap_filter exact_interpolation [] one_volume_world in
  snd run = Return None /\
  stdout (fst run) =
    [ {| r_gaussian := (Int 3, Int 3, Int 1, Int 1, Int 3, Int 1);
         r_median := Int 3;
         r_quantile := Float (9 # 10) |} ] /\
  gaussian (self (fst run)) = Some (Int 3, Int 3, Int 1, Int 1, Int 3, Int 1) /\
  median (self (fst run)) = Some (Int 3).
Proof. cbn zeta. repeat split. Qed.


(** * Further properties of [from_extractor] *)

(** The wrong arity on a 3-tuple. *)
Lemma from_extractor_other_arity_witness :
  from_extractor (extractor_with (Some (PyTuple [Int 3; Float (3 # 2); Int 5]))) 1
    [volume_2x2] = ([volume_2x2], Raise UnboundLocalError).
Proof.
  apply (from_extractor_other_arity _ 1 [volume_2x2] [Int 3; Float (3 # 2); Int 5]);
    [reflexivity|cbn; lia|cbn; lia].
Defined.

(** X2.  A [gaussian] attribute that is missing, None or a bare number is
    not defaulted: [len] fails in the [try], the handler subscripts the
    same attribute and fails in the same way, and AttributeError (missing)
    or TypeError (None, number) leaves [from_extractor] before any
    timepoint is read. *)
Theorem from_extractor_unsized_gaussian (e : Extractor.t) (timepoints : Z) (h : heap)
    (x : exn) :
  (Extractor.gaussian e = None /\ x = AttributeError) \/
  ((Extractor.gaussian e = Some PyNone \/ exists n, Extractor.gaussian e = Some (PyNum n)) /\
   x = TypeError) ->
  from_extractor e timepoints h = (h, Raise x).
Proof.
  intros Hg. rewrite from_extractor_after_decode.
  assert (Hd : decode_gaussian e h = (h, Raise x)).
  { unfold decode_gaussian, try_except, decode_body, decode_handler,
      gaussian_len, gaussian_item, bind, lift.
    destruct Hg as [[Hg ->]|[[Hg|[n Hg]] ->]]; rewrite Hg; reflexivity. }
  now rewrite Hd.
Qed.

Lemma from_extractor_unsized_gaussian_witness :
  from_extractor (extractor_with (Some PyNone)) 1 [volume_2x2] =
    ([volume_2x2], Raise TypeError).
Proof.
  apply (from_extractor_unsized_gaussian (extractor_with (Some PyNone)) 1 [volume_2x2]
           TypeError).
  right. split; [left; reflexivity|reflexivity].
Defined.

Lemma copy_all_allocated (srcs : list loc) : forall h,
  Forall (allocated h) srcs -> copy_all h srcs = h ++ map (read h) srcs.
Proof.
  induction srcs as [|l rest IH]; intros h Hall; cbn [copy_all map].
  - now rewrite app_nil_r.
  - inversion Hall as [|? ? Hl Hrest]; subst. cbn [deepcopy alloc fst].
    rewrite IH.
    + rewrite <- app_assoc. cbn [app]. f_equal. f_equal.
      apply map_ext_in. intros k Hk. rewrite Forall_forall in Hrest.
      unfold read. rewrite lookup_app_l; [reflexivity|].
      apply Hrest. now apply list_elem_of_In.
    + eapply Forall_impl; [exact Hrest|]. unfold allocated.
      intros k Hk. cbn. rewrite length_app. lia.
Qed.

Lemma pull_volumes_spec (e : Extractor.t) (srcs : list loc) : forall i acc h,
  (forall j l, srcs !! j = Some l -> Extractor.get_t e (i + Z.of_nat j) = Return l) ->
  pull_volumes e i (length srcs) acc h =
    (copy_all h srcs, Return (acc ++ seq (length h) (length srcs))).
Proof.
  induction srcs as [|l rest IH]; intros i acc h Hget; cbn [length pull_volumes copy_all seq].
  - now rewrite app_nil_r.
  - pose proof (Hget 0%nat l eq_refl) as H0. cbn in H0. rewrite Z.add_0_r in H0.
    unfold bind at 1, lift. rewrite H0.
    unfold bind at 1. cbn [deepcopy alloc fst].
    rewrite IH.
    + rewrite length_app. cbn [length]. rewrite Nat.add_1_r, <- app_assoc. reflexivity.
    + intros j k Hj. replace (i + 1 + Z.of_nat j) with (i + Z.of_nat (S j)) by lia.
      now apply Hget.
Qed.

(** X3.  When the Gaussian tuple decodes (4 or 6 entries) and the
    timepoints 0 .. n-1 can be read, the sweeper gets n stacks, each a new
    array placed after everything already in the store and holding the
    contents of its timepoint; the store it started from is kept as it was.
    With [timepoints <= 0] no timepoint is read and the stack list is
    empty. *)
Theorem from_extractor_copies_timepoints (e : Extractor.t) (timepoints : Z) (h : heap)
    (items : list num) (srcs : list loc) :
  Extractor.gaussian e = Some (PyTuple items) ->
  length items = 4%nat \/ length items = 6%nat ->
  length srcs = Z.to_nat timepoints ->
  (forall j l, srcs !! j = Some l ->
     Extractor.get_t e (Z.of_nat j) = Return l /\ allocated h l) ->
  exists fs,
    from_extractor e timepoints h = (h ++ map (read h) srcs, Return fs) /\
    stacks fs = seq (length h) (length srcs).
Proof.
  intros Hg Hlen Hn Hget. rewrite from_extractor_after_decode.
  assert (Hd : exists v, decode_gaussian e h = (h, Return (Some v))).
  { destruct Hlen as [H4|H6].
    - destruct items as [|a [|b [|c [|d [|]]]]]; try discriminate.
      eexists. apply decode_gaussian_tuple4. exact Hg.
    - destruct items as [|a [|b [|c [|d [|x [|y [|]]]]]]]; try discriminate.
      eexists. apply decode_gaussian_tuple6. exact Hg. }
  destruct Hd as (v & Hd). rewrite Hd. cbn zeta.
  rewrite <- Hn, (pull_volumes_spec e srcs 0 [] h).
  - rewrite copy_all_allocated.
    + eexists. split; reflexivity.
    + apply Forall_forall. intros l Hl. apply list_elem_of_lookup in Hl as [j Hj].
      now apply (Hget j l).
  - intros j l Hj. rewrite Z.add_0_l. now apply (Hget j l).
Qed.

Lemma from_extractor_copies_timepoints_witness :
  exists fs,
    from_extractor (extractor_with (Some tuple4)) 1 [volume_2x2] =
      ([volume_2x2; volume_2x2], Return fs) /\
    stacks fs = [1%nat].
Proof.
  apply (from_extractor_copies_timepoints (extractor_with (Some tuple4)) 1 [volume_2x2]
           [Int 3; Float (3 # 2); Int 5; Float 2] [0%nat]).
  - reflexivity.
  - left. reflexivity.
  - reflexivity.
  - intros [|j] l Hj; [|discriminate Hj].
    inversion Hj; subst. split; [reflexivity|unfold allocated; cbn; lia].
Defined.

Lemma pull_volumes_raises (e : Extractor.t) (x : exn) (srcs : list loc) :
  forall i acc h count,
  (length srcs < count)%nat ->
  (forall j l, srcs !! j = Some l -> Extractor.get_t e (i + Z.of_nat j) = Return l) ->
  Extractor.get_t e (i + Z.of_nat (length srcs)) = Raise x ->
  snd (pull_volumes e i count acc h) = Raise x.
Proof.
  induction srcs as [|l rest IH]; intros i acc h count Hcount Hget Hx;
    (destruct count as [|count]; [cbn in Hcount; lia|]); cbn [pull_volumes].
  - cbn in Hx. rewrite Z.add_0_r in Hx. unfold bind at 1, lift. now rewrite Hx.
  - pose proof (Hget 0%nat l eq_refl) as H0. cbn in H0. rewrite Z.add_0_r in H0.
    unfold bind at 1, lift. rewrite H0. unfold bind at 1. cbn [deepcopy alloc].
    apply IH.
    + cbn in Hcount. lia.
    + intros j k Hj. replace (i + 1 + Z.of_nat j) with (i + Z.of_nat (S j)) by lia.
      now apply Hget.
    + replace (i + 1 + Z.of_nat (length rest)) with (i + Z.of_nat (length (l :: rest)))
        by (cbn [length]; lia).
      exact Hx.
Qed.

(** X4.  A timepoint that cannot be read ends [from_extractor] with the
    exception of [get_t]: the timepoints before it were read and copied,
    the exception of the first failing one is passed on, and no sweeper is
    built. *)
Theorem from_extractor_unreadable_timepoint (e : Extractor.t) (timepoints : Z) (h : heap)
    (items : list num) (srcs : list loc) (x : exn) :
  Extractor.gaussian e = Some (PyTuple items) ->
  length items = 4%nat \/ length items = 6%nat ->
  (length srcs < Z.to_nat timepoints)%nat ->
  (forall j l, srcs !! j = Some l -> Extractor.get_t e (Z.of_nat j) = Return l) ->
  Extractor.get_t e (Z.of_nat (length srcs)) = Raise x ->
  snd (from_extractor e timepoints h) = Raise x.
Proof.
  intros Hg Hlen Hn Hget Hx. rewrite from_extractor_after_decode.
  assert (Hd : exists v, decode_gaussian e h = (h, Return (Some v))).
  { destruct Hlen as [H4|H6].
    - destruct items as [|a [|b [|c [|d [|]]]]]; try discriminate.
      eexists. apply decode_gaussian_tuple4. exact Hg.
    - destruct items as [|a [|b [|c [|d [|y [|z [|]]]]]]]; try discriminate.
      eexists. apply decode_gaussian_tuple6. exact Hg. }
  destruct Hd as (v & Hd). rewrite Hd. cbn zeta.
  pose proof (pull_volumes_raises e x srcs 0 [] h (Z.to_nat timepoints) Hn) as Hp.
  destruct (pull_volumes e 0 (Z.to_nat timepoints) [] h) as [h2 [ls|x']]; cbn [snd] in *.
  - discriminate Hp; auto.
  - assert (Hxx : @Raise (list loc) x' = Raise x) by (apply Hp; auto).
    now inversion Hxx.
Qed.

Lemma from_extractor_unreadable_timepoint_witness :
  snd (from_extractor (extractor_with (Some tuple6)) 2 [volume_2x2]) = Raise IndexError.
Proof.
  apply (from_extractor_unreadable_timepoint (extractor_with (Some tuple6)) 2 [volume_2x2]
           [Int 3; Int 5; Float 1; Float (3 # 2); Int 7; Float 2] [0%nat] IndexError).
  - reflexivity.
  - right. reflexivity.
  - cbn. lia.
  - intros [|j] l Hj; [|discriminate Hj]. inversion Hj; subst. reflexivity.
  - reflexivity.
Defined.

(** X6.  The median index chosen by [from_extractor] always selects an
    entry of the size list, and when the extractor's median is a number
    equal to 1, 3 or 5 the entry selected is equal to it; so the size the
    sweep starts from is the one the extractor had. *)
Theorem from_extractor_median_round_trip (e : Extractor.t) (timepoints : Z) (h h' : heap)
    (fs : FilterSweeper) :
  from_extractor e timepoints h = (h', Return fs) ->
  exists size,
    list_getitem (median_sizes fs) (median_index fs) = Return size /\
    forall m, Extractor.median e = Some (PyNum m) ->
      num_eqb (Int 1) m || num_eqb (Int 3) m || num_eqb (Int 5) m = true ->
      num_eqb size m = true.
Proof.
  rewrite from_extractor_after_decode.
  destruct (decode_gaussian e h) as [h1 [[v|]|x]]; try discriminate.
  cbn zeta.
  destruct (pull_volumes e 0 (Z.to_nat timepoints) [] h1) as [h2 [ls|x]]; try discriminate.
  intros Heq. inversion Heq; subst. clear Heq. cbn [median_sizes median_index].
  destruct (Extractor.median e) as [[|m|items|items]|];
    try (exists (Int 3); split; [reflexivity|]; intros m' Hm; discriminate Hm).
  cbn [list_index index_from].
  destruct (num_eqb (Int 1) m) eqn:E1;
    [|destruct (num_eqb (Int 3) m) eqn:E3; [|destruct (num_eqb (Int 5) m) eqn:E5]];
    eexists; (split; [reflexivity|]); intros m' Hm Hin;
    inversion Hm; subst; auto.
  rewrite E1, E3, E5 in Hin. discriminate Hin.
Qed.

Lemma from_extractor_median_round_trip_witness :
  exists fs,
    from_extractor (extractor_with (Some tuple4)) 1 [volume_2x2] =
      ([volume_2x2; volume_2x2], Return fs) /\
    exists size,
      list_getitem (median_sizes fs) (median_index fs) = Return size /\
      num_eqb size (Int 5) = true.
Proof.
  eexists. split; [vm_compute; reflexivity|].
  destruct (from_extractor_median_round_trip (extractor_with (Some tuple4)) 1
              [volume_2x2] [volume_2x2; volume_2x2] _ eq_refl) as (size & Hsel & Hm).
  exists size. split; [exact Hsel|]. apply Hm; reflexivity.
Defined.


(** * Further properties of the callback and the session *)

Lemma store_controls_fixed_part c s : fixed_part (store_controls c s) = fixed_part s.
Proof. reflexivity. Qed.

Lemma store_controls_same_fixed c s s' :
  fixed_part s = fixed_part s' -> store_controls c s = store_controls c s'.
Proof.
  unfold fixed_part, store_controls. intros H. inversion H as [[H1 H2 H3 H4]].
  now rewrite H1, H2, H3, H4.
Qed.

Lemma outcome_map_ext {A B} (f g : A -> outcome B) (l : list A) :
  Forall (fun x => f x = g x) l -> outcome_map f l = outcome_map g l.
Proof.
  induction 1 as [|x xs Hx _ IH]; [reflexivity|].
  cbn [outcome_map]. now rewrite Hx, IH.
Qed.

Lemma outcome_map_app_raise {A B} (f : A -> outcome B) (pre post : list A) (x : A)
    (done : list B) (e : exn) :
  outcome_map f pre = Return done -> f x = Raise e ->
  outcome_map f (pre ++ x :: post) = Raise e.
Proof.
  revert done. induction pre as [|y ys IH]; intros done Hpre Hx; cbn [app outcome_map].
  - now rewrite Hx.
  - cbn [outcome_map] in Hpre. destruct (f y) as [b|e']; cbn in *; [|discriminate].
    destruct (outcome_map f ys) as [bs|e'] eqn:E; cbn in *; [|discriminate].
    now rewrite (IH bs eq_refl Hx).
Qed.

Lemma outcome_map_length {A B} (f : A -> outcome B) (l : list A) : forall out,
  outcome_map f l = Return out -> length out = length l.
Proof.
  induction l as [|x xs IH]; intros out H; cbn [outcome_map] in H.
  - now inversion H.
  - destruct (f x) as [b|e]; cbn in H; [|discriminate].
    destruct (outcome_map f xs) as [bs|e] eqn:E; cbn in H; [|discriminate].
    inversion H; subst. cbn. now rewrite (IH bs eq_refl).
Qed.

Section SessionProperties.

Variable gaussian3d : ndarray -> gauss6 -> effect.
Variable medFilter2d : ndarray -> num -> effect.
Variable interpolation : list Z -> Q -> float.

(** One control change, as the event loop sees it. *)
Lemma gui_call_spec (ev : event) (w : world) :
  exists w', gui_call gaussian3d medFilter2d interpolation ev w = (w', Return tt) /\
    self w' = match ev_layer ev with
              | Some _ => store_controls (ev_controls ev) (self w)
              | None => self w
              end /\
    stdout w' = stdout w /\
    preserved w w'.
Proof.
  pose proof (gui_call_preserved gaussian3d medFilter2d interpolation ev w) as P.
  unfold gui_call in *. destruct ev as [[img|] c]; cbn [ev_layer ev_controls] in *.
  - destruct (filter_and_threshold_spec gaussian3d medFilter2d interpolation img c w)
      as (w' & o & E & X & _).
    rewrite E in *. destruct X as (S & _ & O & _). cbn in S, O.
    destruct o as [[out|]|e]; cbn in P; eexists; (split; [reflexivity|]); auto.
  - cbn in *. eexists. split; [reflexivity|]. auto.
Qed.

Lemma event_loop_spec (events : list event) : forall w,
  exists w', event_loop gaussian3d medFilter2d interpolation events w = (w', Return tt) /\
    fixed_part (self w') = fixed_part (self w) /\
    stdout w' = stdout w /\
    preserved w w'.
Proof.
  induction events as [|ev rest IH]; intros w.
  - exists w. cbn. repeat split; auto.
  - cbn [event_loop]. unfold bind.
    destruct (gui_call_spec ev w) as (w1 & E1 & S1 & O1 & P1). rewrite E1.
    destruct (IH w1) as (w2 & E2 & F2 & O2 & P2).
    exists w2. split; [exact E2|]. split; [|split].
    + rewrite F2, S1. now destruct (ev_layer ev).
    + congruence.
    + eapply preserved_trans; eassumption.
Qed.

Lemma event_loop_snoc (events : list event) (ev : event) : forall w,
  event_loop gaussian3d medFilter2d interpolation (events ++ [ev]) w =
    gui_call gaussian3d medFilter2d interpolation ev (fst (event_loop gaussian3d medFilter2d interpolation events w)).
Proof.
  induction events as [|ev' rest IH]; intros w; cbn [app event_loop].
  - unfold bind. destruct (gui_call_spec ev w) as (w1 & E1 & _). now rewrite E1.
  - unfold bind.
    destruct (gui_call_spec ev' w) as (w1 & E1 & _). rewrite E1. apply IH.
Qed.

(** After a session that ends with a control change on a layer, the
    sweeper holds the values of that change. *)
Lemma event_loop_last (events : list event) (img : Image) (c : controls) (w : world) :
  self (fst (event_loop gaussian3d medFilter2d interpolation
               (events ++ [ {| ev_layer := Some img; ev_controls := c |} ]) w)) =
    store_controls c (self w).
Proof.
  rewrite event_loop_snoc.
  destruct (event_loop_spec events w) as (w1 & E1 & F1 & _). rewrite E1. cbn [fst].
  destruct (gui_call_spec {| ev_layer := Some img; ev_controls := c |} w1)
    as (w2 & E2 & S2 & _).
  rewrite E2. cbn [fst ev_layer ev_controls] in *. rewrite S2.
  now apply store_controls_same_fixed.
Qed.

Lemma sweep_parameters_unfold (events : list event) (w : world) :
  sweep_parameters gaussian3d medFilter2d interpolation events w =
    finalize (fst (event_loop gaussian3d medFilter2d interpolation events (with_viewer w))).
Proof.
  unfold sweep_parameters, bind at 1, modify. fold (with_viewer w).
  unfold bind.
  destruct (event_loop_spec events (with_viewer w)) as (w1 & E1 & _). now rewrite E1.
Qed.

Lemma for_stacks_length (img : Image) (todo : list loc) : forall acc w w' out,
  for_stacks gaussian3d medFilter2d interpolation img todo acc w = (w', Return out) ->
  length out = (length acc + length todo)%nat.
Proof.
  induction todo as [|stack rest IH]; intros acc w w' out H; cbn [for_stacks] in H.
  - inversion H; subst. cbn. lia.
  - unfold bind in H.
    destruct (filter_stack gaussian3d medFilter2d interpolation img stack w) as [w1 [t|e]];
      [|discriminate].
    rewrite (IH _ _ _ _ H), length_app. cbn. lia.
Qed.

(** X8.  With no loaded volume a recomputation cannot fail, whatever the
    layer and the controls (also a median index or a quantile out of
    range): the controls are stored, the store is not touched and the
    image returned is empty. *)
Theorem recomputation_without_stacks (img : Image) (c : controls) (w : world) :
  stacks (self w) = [] ->
  filter_and_threshold gaussian3d medFilter2d interpolation (Some img) c w =
    (set_self (store_controls c (self w)) w, Return (Some [])).
Proof.
  intros Hs. unfold filter_and_threshold, bind, modify. cbn [get].
  cbn [self set_self store_controls stacks]. now rewrite Hs.
Qed.

(** X9.  A recomputation has no memory of earlier ones: after any list of
    control changes, the callback called with a layer and controls gives
    the outcome (image or exception) it would have given at the start. *)
Theorem recomputation_independent_of_history (events : list event) (img : Image)
    (c : controls) (w : world) :
  Forall (allocated (mem w)) (stacks (self w)) ->
  allocated (mem w) (data img) ->
  snd (filter_and_threshold gaussian3d medFilter2d interpolation (Some img) c
         (fst (event_loop gaussian3d medFilter2d interpolation events w))) =
  snd (filter_and_threshold gaussian3d medFilter2d interpolation (Some img) c w).
Proof.
  intros Hall Hd.
  destruct (event_loop_spec events w) as (w1 & E1 & F1 & _ & (S1 & L1 & M1)).
  rewrite E1. cbn [fst].
  assert (Hall1 : Forall (allocated (mem w1)) (stacks (self w1))).
  { rewrite S1. eapply Forall_impl; [exact Hall|]. unfold allocated. cbn. lia. }
  assert (Hd1 : allocated (mem w1) (data img)) by (unfold allocated in *; lia).
  destruct (filter_and_threshold_spec gaussian3d medFilter2d interpolation img c w1)
    as (w1' & o1 & Eq1 & _ & V1).
  destruct (filter_and_threshold_spec gaussian3d medFilter2d interpolation img c w)
    as (w' & o & Eq & _ & V).
  rewrite Eq1, Eq. cbn [snd]. rewrite (V1 Hall1 Hd1), (V Hall Hd), S1.
  rewrite (store_controls_same_fixed c (self w1) (self w) F1).
  f_equal. apply outcome_map_ext.
  eapply Forall_impl; [exact Hall|]. intros l Hl. cbn.
  unfold thresholded_stack, read. now rewrite (M1 l Hl), (M1 (data img) Hd).
Qed.

(** X10.  An image returned by the callback has one boolean volume per
    loaded volume. *)
Theorem one_mask_per_stack (img : Image) (c : controls) (w : world) (out : list mask) :
  snd (filter_and_threshold gaussian3d medFilter2d interpolation (Some img) c w) = Return (Some out) ->
  length out = length (stacks (self w)).
Proof.
  unfold filter_and_threshold, bind, modify. cbn [get].
  destruct (for_stacks gaussian3d medFilter2d interpolation img _ [] _) as [w' [r|e]] eqn:E;
    cbn [snd ret]; [|discriminate].
  intros H. inversion H; subst.
  apply for_stacks_length in E. cbn in E. exact E.
Qed.

(** X11.  What [gaussian3d] or [medFilter2d] raises on a stack, the stacks
    before it having gone through, is what the callback raises: the loop
    stops at the first stack that fails. *)
Theorem filter_exception_propagates (img : Image) (c : controls) (w : world)
    (pre post : list loc) (stack : loc) (done : list mask) (e : exn) :
  Forall (allocated (mem w)) (stacks (self w)) ->
  allocated (mem w) (data img) ->
  stacks (self w) = pre ++ stack :: post ->
  let s' := store_controls c (self w) in
  outcome_map (thresholded_stack gaussian3d medFilter2d interpolation s' (mem w) img) pre = Return done ->
  filter_output (gaussian3d (read (mem w) stack) (gauss_of s')) = Raise e \/
  (exists blurred size,
     filter_output (gaussian3d (read (mem w) stack) (gauss_of s')) = Return blurred /\
     list_getitem (median_sizes s') (median_index s') = Return size /\
     filter_output (medFilter2d blurred size) = Raise e) ->
  snd (filter_and_threshold gaussian3d medFilter2d interpolation (Some img) c w) = Raise e.
Proof.
  intros Hall Hd Hst s' Hpre Hfail.
  destruct (filter_and_threshold_spec gaussian3d medFilter2d interpolation img c w)
    as (w' & o & E & _ & V).
  rewrite E. cbn [snd]. rewrite (V Hall Hd), Hst. fold s'.
  rewrite (outcome_map_app_raise _ pre post stack done e Hpre); [reflexivity|].
  unfold thresholded_stack, median_filtered. fold (gauss_of s').
  destruct Hfail as [Hb|(blurred & size & Hb & Hi & Hm)]; rewrite Hb; cbn [outcome_bind].
  - reflexivity.
  - rewrite Hi. cbn [outcome_bind]. now rewrite Hm.
Qed.

(** X12.  The callback assigns the eight parameter fields and nothing
    else: the stack list, the size list, the [gaussian] and [median]
    attributes, the display and the printed output are as before, and the
    store never shrinks. *)
Theorem callback_changes_parameters_only (layer : option Image) (c : controls)
    (w : world) :
  let w' := fst (filter_and_threshold gaussian3d medFilter2d interpolation layer c w) in
  fixed_part (self w') = fixed_part (self w) /\
  display w' = display w /\
  stdout w' = stdout w /\
  (length (mem w) <= length (mem w'))%nat.
Proof.
  destruct layer as [img|]; [|cbn; auto].
  destruct (filter_and_threshold_spec gaussian3d medFilter2d interpolation img c w)
    as (w' & o & E & (S & D & O & L & _) & _).
  cbn zeta. rewrite E. cbn in *. rewrite S. auto.
Qed.

Lemma finalize_keeps_volumes (w : world) :
  mem (fst (finalize w)) = mem w /\ stacks (self (fst (finalize w))) = stacks (self w).
Proof.
  pose proof (finalize_spec w) as F. cbn zeta in F.
  destruct (list_getitem (median_sizes (self w)) (median_index (self w))) as [size|e].
  - destruct F as (w' & E & Hm & _ & _ & _ & Hs & _). rewrite E. cbn [fst]. auto.
  - rewrite F. auto.
Qed.

(** X13.  When the last control change leaves a median index that the size
    list cannot serve (a list shorter than the control's range, say),
    [sweep_parameters] ends with the exception of the subscript: nothing
    is printed and the [gaussian] and [median] attributes are not set. *)
Theorem sweep_fails_on_unselectable_median (events : list event) (img : Image)
    (c : controls) (w : world) (x : exn) :
  list_getitem (median_sizes (self w)) (Int (c_median_index c)) = Raise x ->
  let run := sweep_parameters gaussian3d medFilter2d interpolation
               (events ++ [ {| ev_layer := Some img; ev_controls := c |} ]) w in
  snd run = Raise x /\
  stdout (fst run) = stdout w /\
  gaussian (self (fst run)) = gaussian (self w) /\
  median (self (fst run)) = median (self w).
Proof.
  intros Hsel run. subst run. rewrite sweep_parameters_unfold.
  pose proof (event_loop_last events img c (with_viewer w)) as Hself.
  destruct (event_loop_spec (events ++ [ {| ev_layer := Some img; ev_controls := c |} ])
              (with_viewer w)) as (w1 & E1 & _ & O1 & _).
  rewrite E1 in *. cbn [fst] in *. cbn [with_viewer self set_mem stdout] in Hself, O1.
  pose proof (finalize_spec w1) as F. cbn zeta in F.
  rewrite Hself in F. cbn [store_controls median_sizes median_index] in F.
  rewrite Hsel in F. rewrite F. cbn [fst snd]. rewrite Hself, O1. auto.
Qed.

(** X14.  A session that ends with a control change on a layer finishes
    with the values of that change, whether or not its recomputation went
    through: the record printed, and the [gaussian] and [median]
    attributes, hold the widths [2 * h + 1], the sigmas, the size selected
    by the median index and the quantile of the last change. *)
Theorem sweep_result_of_last_change (events : list event) (img : Image)
    (c : controls) (w : world) (size : num) :
  list_getitem (median_sizes (self w)) (Int (c_median_index c)) = Return size ->
  let run := sweep_parameters gaussian3d medFilter2d interpolation
               (events ++ [ {| ev_layer := Some img; ev_controls := c |} ]) w in
  let r := {| r_gaussian := (Int (2 * width_x c + 1), Int (2 * width_y c + 1),
                             Float (c_sigma_x c), Float (c_sigma_y c),
                             Int (2 * width_z c + 1), Float (c_sigma_z c));
              r_median := size;
              r_quantile := Float (c_quantile c) |} in
  snd run = Return None /\
  stdout (fst run) = stdout w ++ [r] /\
  gaussian (self (fst run)) = Some (r_gaussian r) /\
  median (self (fst run)) = Some size.
Proof.
  intros Hsel run r. subst run. rewrite sweep_parameters_unfold.
  pose proof (event_loop_last events img c (with_viewer w)) as Hself.
  destruct (event_loop_spec (events ++ [ {| ev_layer := Some img; ev_controls := c |} ])
              (with_viewer w)) as (w1 & E1 & _ & O1 & _).
  rewrite E1 in *. cbn [fst] in *. cbn [with_viewer self set_mem stdout] in Hself, O1.
  pose proof (finalize_spec w1) as F. cbn zeta in F.
  rewrite Hself in F. cbn [store_controls median_sizes median_index] in F.
  rewrite Hsel in F. destruct F as (w' & E & _ & _ & HO & _ & _ & HG & HM).
  rewrite E. cbn [fst snd]. rewrite HO, HG, HM, O1. auto.
Qed.

(** X15.  Over the whole of [sweep_parameters] the loaded volumes are the
    same arrays with the same contents, and the array shown by the viewer
    is a new one, made of the stacks as they were at the start, that no
    recomputation changes. *)
Theorem sweep_keeps_volumes (events : list event) (w : world) :
  Forall (allocated (mem w)) (stacks (self w)) ->
  let w' := fst (sweep_parameters gaussian3d medFilter2d interpolation events w) in
  stacks (self w') = stacks (self w) /\
  Forall (fun stack => read (mem w') stack = read (mem w) stack) (stacks (self w)) /\
  read (mem w') (length (mem w)) = np_array (mem w) (stacks (self w)).
Proof.
  intros Hall w'. subst w'. rewrite sweep_parameters_unfold.
  destruct (event_loop_spec events (with_viewer w)) as (w1 & E1 & _ & _ & (S1 & L1 & M1)).
  rewrite E1. cbn [fst].
  destruct (finalize_keeps_volumes w1) as (Hm & Hs). rewrite Hm, Hs, S1.
  cbn [with_viewer self set_mem mem alloc fst] in *.
  assert (Hold : forall l, allocated (mem w) l -> read (mem w1) l = read (mem w) l).
  { intros l Hl. unfold read. rewrite M1.
    - now rewrite lookup_app_l.
    - unfold allocated in *. rewrite length_app. lia. }
  split; [reflexivity|]. split.
  - eapply Forall_impl; [exact Hall|]. intros l Hl. cbn. now apply Hold.
  - unfold read. rewrite M1.
    + fold (read (mem w ++ [np_array (mem w) (stacks (self w))]) (length (mem w))).
      apply read_alloc_new.
    + unfold allocated. rewrite length_app. cbn. lia.
Qed.

Lemma chosen_index_selects (e : Extractor.t) :
  exists size,
    list_getitem [Int 1; Int 3; Int 5]
      (match Extractor.median e with
       | Some m => match list_index [Int 1; Int 3; Int 5] m with
                   | Return i => Int i
                   | Raise _ => Int 1
                   end
       | None => Int 1
       end) = Return size.
Proof.
  destruct (Extractor.median e) as [[|m|items|items]|]; try (eexists; reflexivity).
  cbn [list_index index_from].
  destruct (num_eqb (Int 1) m); [eexists; reflexivity|].
  destruct (num_eqb (Int 3) m); [eexists; reflexivity|].
  destruct (num_eqb (Int 5) m); eexists; reflexivity.
Qed.


End SessionProperties.


(** * The width controls *)

Lemma odd_below (w : Z) : 2 * ((w - 1) / 2) + 1 = if Z.odd w then w else w - 1.
Proof.
  pose proof (Z.div_mod (w - 1) 2 ltac:(lia)) as Hdm.
  pose proof (Z.mod_pos_bound (w - 1) 2 ltac:(lia)) as Hb.
  destruct (Z.odd w) eqn:Hodd.
  - apply Z.odd_spec in Hodd as [k Hk]. lia.
  - assert (Hev : Z.even w = true) by (rewrite <- Z.negb_odd, Hodd; reflexivity).
    apply Z.even_spec in Hev as [k Hk]. lia.
Qed.

(** X17.  The width controls start from [(w - 1) // 2] (line 141) and the
    callback stores [2 * h + 1] (lines 148-150): when the three controls
    still hold their starting values, an odd stored width comes back as it
    was and an even one comes back lowered by one. *)
Theorem untouched_width_controls (s : FilterSweeper) (c : controls) :
  initial_half_width (width_x_val s) = Int (width_x c) ->
  initial_half_width (width_y_val s) = Int (width_y c) ->
  initial_half_width (width_z_val s) = Int (width_z c) ->
  exists wx wy wz,
    width_x_val s = Int wx /\ width_y_val s = Int wy /\ width_z_val s = Int wz /\
    width_x_val (store_controls c s) = Int (if Z.odd wx then wx else wx - 1) /\
    width_y_val (store_controls c s) = Int (if Z.odd wy then wy else wy - 1) /\
    width_z_val (store_controls c s) = Int (if Z.odd wz then wz else wz - 1).
Proof.
  intros Hx Hy Hz. cbn [store_controls width_x_val width_y_val width_z_val].
  destruct (width_x_val s) as [wx|qx]; [|discriminate Hx].
  destruct (width_y_val s) as [wy|qy]; [|discriminate Hy].
  destruct (width_z_val s) as [wz|qz]; [|discriminate Hz].
  cbn in Hx, Hy, Hz. inversion Hx as [Hx']. inversion Hy as [Hy']. inversion Hz as [Hz'].
  exists wx, wy, wz. rewrite !odd_below. repeat split.
Qed.

Lemma untouched_width_controls_witness :
  exists wx wy wz,
    width_x_val widths_4_3_7 = Int wx /\ width_y_val widths_4_3_7 = Int wy /\
    width_z_val widths_4_3_7 = Int wz /\
    width_x_val (store_controls half_widths_1_1_3 widths_4_3_7) =
      Int (if Z.odd wx then wx else wx - 1) /\
    width_y_val (store_controls half_widths_1_1_3 widths_4_3_7) =
      Int (if Z.odd wy then wy else wy - 1) /\
    width_z_val (store_controls half_widths_1_1_3 widths_4_3_7) =
      Int (if Z.odd wz then wz else wz - 1).
Proof.
  apply (untouched_width_controls widths_4_3_7 half_widths_1_1_3); reflexivity.
Defined.

(** * The further properties on concrete sessions *)

Lemma recomputation_without_stacks_witness :
  filter_and_threshold blur_in_place cap_filter exact_interpolation (Some worm_layer) index3_controls
    (new_session (__init__ [] None) [volume_2x2]) =
    (set_self (store_controls index3_controls (__init__ [] None))
       (new_session (__init__ [] None) [volume_2x2]),
     Return (Some [])).
Proof.
  apply (recomputation_without_stacks blur_in_place cap_filter exact_interpolation worm_layer index3_controls
           (new_session (__init__ [] None) [volume_2x2])).
  reflexivity.
Defined.

Lemma recomputation_independent_of_history_witness :
  snd (filter_and_threshold blur_in_place cap_filter exact_interpolation (Some worm_layer) default_controls
         (fst (event_loop blur_in_place cap_filter exact_interpolation
                 [ {| ev_layer := Some worm_layer; ev_controls := index3_controls |};
                   {| ev_layer := None; ev_controls := half_widths_1_1_3 |} ]
                 one_volume_world))) =
  snd (filter_and_threshold blur_in_place cap_filter exact_interpolation (Some worm_layer) default_controls
         one_volume_world).
Proof.
  apply (recomputation_independent_of_history blur_in_place cap_filter exact_interpolation _ worm_layer
           default_controls one_volume_world one_volume_world_allocated
           worm_layer_allocated).
Defined.

Lemma one_mask_per_stack_witness :
  length [ {| mshape := [1%nat; 2%nat; 2%nat]; mflat := [false; true; false; false] |} ] =
  length (stacks (self one_volume_world)).
Proof.
  apply (one_mask_per_stack blur_in_place cap_filter exact_interpolation worm_layer default_controls
           one_volume_world).
  reflexivity.
Defined.

Lemma filter_exception_propagates_witness :
  snd (filter_and_threshold blur_in_place cap_filter exact_interpolation (Some worm_layer) default_controls
         zero_size_world) = Raise (LibraryError 1).
Proof.
  apply (filter_exception_propagates blur_in_place cap_filter exact_interpolation worm_layer default_controls
           zero_size_world [] [] 0%nat [] (LibraryError 1)).
  - repeat constructor.
  - unfold allocated. cbn. lia.
  - reflexivity.
  - reflexivity.
  - right. eexists _, _. split; [reflexivity|]. split; reflexivity.
Defined.

Lemma sweep_fails_on_unselectable_median_witness :
  let run := sweep_parameters blur_in_place cap_filter exact_interpolation
               ([] ++ [ {| ev_layer := Some worm_layer; ev_controls := index3_controls |} ])
               one_volume_world in
  snd run = Raise IndexError /\
  stdout (fst run) = stdout one_volume_world /\
  gaussian (self (fst run)) = gaussian (self one_volume_world) /\
  median (self (fst run)) = median (self one_volume_world).
Proof.
  apply (sweep_fails_on_unselectable_median blur_in_place cap_filter exact_interpolation [] worm_layer
           index3_controls one_volume_world IndexError).
  reflexivity.
Defined.

Lemma sweep_result_of_last_change_witness :
  let run := sweep_parameters blur_in_place cap_filter exact_interpolation
               ([ {| ev_layer := Some worm_layer; ev_controls := index3_controls |} ] ++
                [ {| ev_layer := Some worm_layer; ev_controls := half_widths_1_1_3 |} ])
               one_volume_world in
  snd run = Return None /\
  stdout (fst run) =
    [ {| r_gaussian := (Int 3, Int 3, Float 1, Float 1, Int 7, Float 1);
         r_median := Int 3;
         r_quantile := Float (9 # 10) |} ] /\
  gaussian (self (fst run)) = Some (Int 3, Int 3, Float 1, Float 1, Int 7, Float 1) /\
  median (self (fst run)) = Some (Int 3).
Proof.
  apply (sweep_result_of_last_change blur_in_place cap_filter exact_interpolation
           [ {| ev_layer := Some worm_layer; ev_controls := index3_controls |} ]
           worm_layer half_widths_1_1_3 one_volume_world (Int 3)).
  reflexivity.
Defined.

Lemma sweep_keeps_volumes_witness :
  let w' := fst (sweep_parameters blur_in_place cap_filter exact_interpolation
                   [ {| ev_layer := Some worm_layer; ev_controls := default_controls |} ]
                   one_volume_world) in
  stacks (self w') = [0%nat] /\
  Forall (fun stack => read (mem w') stack = read (mem one_volume_world) stack) [0%nat] /\
  read (mem w') 2%nat = np_array (mem one_volume_world) [0%nat].
Proof.
  apply (sweep_keeps_volumes blur_in_place cap_filter exact_interpolation _ one_volume_world
           one_volume_world_allocated).
Defined.


Lemma from_extractor_quantile_median_fallback_witness :
  exists fs,
    from_extractor bare_extractor 1 [volume_2x2] = ([volume_2x2; volume_2x2], Return fs) /\
    quantile fs = Float (99 # 100) /\
    median_index fs = Int 1.
Proof.
  eexists. split; [vm_compute; reflexivity|].
  destruct (from_extractor_quantile_median_fallback bare_extractor 1 [volume_2x2]
              [volume_2x2; volume_2x2] _ eq_refl) as (Hq & Hm & _).
  split; [apply Hq; reflexivity|apply Hm; reflexivity].
Defined.

Lemma event_loop_widths_odd_witness :
  widths_odd
    (self (fst (event_loop blur_in_place cap_filter exact_interpolation
                  [ {| ev_layer := None; ev_controls := index3_controls |};
                    {| ev_layer := Some worm_layer; ev_controls := half_widths_1_1_3 |} ]
                  one_volume_world))).
Proof.
  apply (event_loop_widths_odd blur_in_place cap_filter exact_interpolation _ one_volume_world).
  - repeat constructor; cbn; lia.
  - unfold widths_odd. cbn. repeat split; lia.
Defined.
